(** * BME68x compensation core of the bmxx80 driver

    A shallow embedding of the BME68x part of package [bmxx80]: calibration
    parsing, the three compensation functions, the idle check and the
    measurement orchestrator, followed by the properties established
    about them.

    Conventions of the embedding.
    - A Go fixed-width integer is a [Z] together with the wrap-around of
      its type, written out at every operation ([int32], [int64], ...).
    - A Go [byte] is a [Byte.byte]; [b2z] gives its numeric value.
    - A Go [float64] is a [spec_float] at precision 53 and [emax] 1024
      (IEEE 754 binary64, round to nearest even, one rounding per
      operation).
    - A slice index that is out of range is a run-time panic; the parsing
      monad records it together with the index reads completed before. *)

From Stdlib Require Import ZArith List Lia Bool.
From Stdlib Require Import Strings.Byte.
From Stdlib Require Import Floats.SpecFloat.
Import ListNotations.

Local Open Scope Z_scope.

(** ** Fixed-width integers *)

Module GoInt.

(** Two's-complement wrap-around of a signed [w]-bit integer. *)
Definition wrapS (w : Z) (x : Z) : Z :=
  (x + 2 ^ (w - 1)) mod 2 ^ w - 2 ^ (w - 1).

(** Wrap-around of an unsigned [w]-bit integer. *)
Definition wrapU (w : Z) (x : Z) : Z := x mod 2 ^ w.

Definition int8 := wrapS 8.
Definition int16 := wrapS 16.
Definition int32 := wrapS 32.
Definition int64 := wrapS 64.
Definition uint8 := wrapU 8.
Definition uint16 := wrapU 16.
Definition uint32 := wrapU 32.

Definition inS (w : Z) (x : Z) : Prop := - 2 ^ (w - 1) <= x < 2 ^ (w - 1).
Definition inU (w : Z) (x : Z) : Prop := 0 <= x < 2 ^ w.

(** Numeric value of a byte, [0 .. 255]. *)
Definition b2z (b : byte) : Z := Z.of_N (Byte.to_N b).

End GoInt.
Import GoInt.

(** ** Slices, index panics and the parsing monad *)

(** The two calibration buffers handed to [newCalibration68x]. *)
Inductive block := Tph | Hum.

(** Outcome of a Go function without an error result: it returns, or an
    index expression [s[idx]] with [len(s) = len] panics. *)
Inductive outcome (A : Type) :=
| Returned (a : A)
| IndexPanic (b : block) (idx len : nat).
Arguments Returned {A} a.
Arguments IndexPanic {A} b idx len.

(** A computation threads the log of index reads completed so far. *)
Definition M (A : Type) : Type := list (block * nat) -> list (block * nat) * outcome A.

Definition ret {A} (a : A) : M A := fun log => (log, Returned a).

Definition bind {A B} (m : M A) (k : A -> M B) : M B :=
  fun log =>
    match m log with
    | (log', Returned a) => k a log'
    | (log', IndexPanic b i n) => (log', IndexPanic b i n)
    end.

Notation "x <- m ;; k" := (bind m (fun x => k))
  (at level 61, m at next level, right associativity).

(** [s[i]] on the slice [s] named [b]. *)
Definition index (b : block) (s : list byte) (i : nat) : M byte :=
  fun log =>
    match nth_error s i with
    | Some x => (log ++ [(b, i)], Returned x)
    | None => (log, IndexPanic b i (length s))
    end.

Definition run {A} (m : M A) : list (block * nat) * outcome A := m [].

(** ** Calibration coefficients *)

Record calibration68x := {
  t1 : Z;  (* uint16 *)
  t2 : Z;  (* int16 *)
  t3 : Z;  (* int8 *)
  p1 : Z;  (* uint16 *)
  p2 : Z; p4 : Z; p5 : Z; p8 : Z; p9 : Z;  (* int16 *)
  p3 : Z; p6 : Z; p7 : Z;  (* int8 *)
  p10 : Z;  (* uint8 *)
  h1 : Z; h2 : Z;  (* uint16 *)
  h3 : Z; h4 : Z; h5 : Z; h7 : Z;  (* int8 *)
  h6 : Z  (* uint8 *)
}.

(** Every field lies in the range of its Go type. *)
Definition cal_in_range (c : calibration68x) : Prop :=
  inU 16 (t1 c) /\ inS 16 (t2 c) /\ inS 8 (t3 c) /\
  inU 16 (p1 c) /\ inS 16 (p2 c) /\ inS 8 (p3 c) /\ inS 16 (p4 c) /\
  inS 16 (p5 c) /\ inS 8 (p6 c) /\ inS 8 (p7 c) /\ inS 16 (p8 c) /\
  inS 16 (p9 c) /\ inU 8 (p10 c) /\
  inU 16 (h1 c) /\ inU 16 (h2 c) /\ inS 8 (h3 c) /\ inS 8 (h4 c) /\
  inS 8 (h5 c) /\ inU 8 (h6 c) /\ inS 8 (h7 c).

(** [uint16(lo) | uint16(hi)<<8] *)
Definition le_u16 (lo hi : byte) : Z :=
  Z.lor (uint16 (b2z lo)) (uint16 (Z.shiftl (uint16 (b2z hi)) 8)).

(** [int16(lo) | int16(hi)<<8] *)
Definition le_i16 (lo hi : byte) : Z :=
  Z.lor (int16 (b2z lo)) (int16 (Z.shiftl (int16 (b2z hi)) 8)).

(** [newCalibration68x]: the index expressions are evaluated in source
    order, statement by statement and left to right. *)
Definition newCalibration68x (tph h : list byte) : M calibration68x :=
  h8 <- index Hum h 8 ;; h9 <- index Hum h 9 ;;
  let c_t1 := le_u16 h8 h9 in
  b0 <- index Tph tph 0 ;; b1 <- index Tph tph 1 ;;
  let c_t2 := le_i16 b0 b1 in
  b2 <- index Tph tph 2 ;;
  let c_t3 := int8 (b2z b2) in
  b4 <- index Tph tph 4 ;; b5 <- index Tph tph 5 ;;
  let c_p1 := le_u16 b4 b5 in
  b6 <- index Tph tph 6 ;; b7 <- index Tph tph 7 ;;
  let c_p2 := le_i16 b6 b7 in
  b8 <- index Tph tph 8 ;;
  let c_p3 := int8 (b2z b8) in
  b10 <- index Tph tph 10 ;; b11 <- index Tph tph 11 ;;
  let c_p4 := le_i16 b10 b11 in
  b12 <- index Tph tph 12 ;; b13 <- index Tph tph 13 ;;
  let c_p5 := le_i16 b12 b13 in
  b15 <- index Tph tph 15 ;;
  let c_p6 := int8 (b2z b15) in
  b14 <- index Tph tph 14 ;;
  let c_p7 := int8 (b2z b14) in
  b18 <- index Tph tph 18 ;; b19 <- index Tph tph 19 ;;
  let c_p8 := le_i16 b18 b19 in
  b20 <- index Tph tph 20 ;; b21 <- index Tph tph 21 ;;
  let c_p9 := le_i16 b20 b21 in
  b22 <- index Tph tph 22 ;;
  let c_p10 := b2z b22 in
  g1 <- index Hum h 1 ;; g2 <- index Hum h 2 ;;
  let c_h1 :=
    Z.lor (Z.land (uint16 (b2z g1)) 15) (uint16 (Z.shiftl (uint16 (b2z g2)) 4)) in
  g1' <- index Hum h 1 ;; g0 <- index Hum h 0 ;;
  let c_h2 :=
    Z.lor (Z.shiftr (uint16 (b2z g1')) 4) (uint16 (Z.shiftl (uint16 (b2z g0)) 4)) in
  g3 <- index Hum h 3 ;;
  let c_h3 := int8 (b2z g3) in
  g4 <- index Hum h 4 ;;
  let c_h4 := int8 (b2z g4) in
  g5 <- index Hum h 5 ;;
  let c_h5 := int8 (b2z g5) in
  g6 <- index Hum h 6 ;;
  let c_h6 := b2z g6 in
  g7 <- index Hum h 7 ;;
  let c_h7 := int8 (b2z g7) in
  ret {| t1 := c_t1; t2 := c_t2; t3 := c_t3;
         p1 := c_p1; p2 := c_p2; p4 := c_p4; p5 := c_p5; p8 := c_p8; p9 := c_p9;
         p3 := c_p3; p6 := c_p6; p7 := c_p7; p10 := c_p10;
         h1 := c_h1; h2 := c_h2; h3 := c_h3; h4 := c_h4; h5 := c_h5; h7 := c_h7;
         h6 := c_h6 |}.

(** ** Temperature and humidity compensation (integer) *)

(** [int32((tFine*5 + 128) >> 8)] on the [int64] value [tFine]: the last
    line of [compensateTempInt]. *)
Definition centiCelsius_of (tFine : Z) : Z :=
  int32 (Z.shiftr (int64 (int64 (tFine * 5) + 128)) 8).

(** [compensateTempInt]; [raw] is an [int32], the locals are [int64]. *)
Definition compensateTempInt (c : calibration68x) (raw : Z) : Z * Z :=
  let var1 := int64 (Z.shiftr (int64 raw) 3 - int64 (Z.shiftl (int64 (t1 c)) 1)) in
  let var2 := Z.shiftr (int64 (var1 * int64 (t2 c))) 11 in
  let var3 := Z.shiftr (int64 (Z.shiftr var1 1 * Z.shiftr var1 1)) 12 in
  let var3 := Z.shiftr (int64 (var3 * int64 (Z.shiftl (int64 (t3 c)) 4))) 14 in
  let tFine := int64 (var2 + var3) in
  (centiCelsius_of tFine, int32 tFine).

(** Go's [/] on integers truncates toward zero. *)
Definition div32 (a b : Z) : Z := int32 (Z.quot a b).
Definition mul32 (a b : Z) : Z := int32 (a * b).
Definition add32 (a b : Z) : Z := int32 (a + b).
Definition sub32 (a b : Z) : Z := int32 (a - b).
Definition shl32 (a n : Z) : Z := int32 (Z.shiftl a n).
Definition shr32 (a n : Z) : Z := Z.shiftr a n.

(** [tempScaled = ((tFine * 5) + 128) >> 8] in [int32] arithmetic: the
    first line of [compensateHumidityInt]. *)
Definition tempScaled_of (tFine : Z) : Z :=
  shr32 (add32 (mul32 tFine 5) 128) 8.

(** The value of [calcHum] before the cap. *)
Definition calcHum_raw (c : calibration68x) (raw tFine : Z) : Z :=
  let tempScaled := tempScaled_of tFine in
  let var1 :=
    sub32 (sub32 raw (mul32 (int32 (h1 c)) 16))
          (shr32 (div32 (mul32 tempScaled (int32 (h3 c))) 100) 1) in
  let var2 :=
    shr32
      (mul32 (int32 (h2 c))
         (add32
            (add32 (div32 (mul32 tempScaled (int32 (h4 c))) 100)
               (div32
                  (shr32
                     (mul32 tempScaled
                        (div32 (mul32 tempScaled (int32 (h5 c))) 100)) 6)
                  100))
            (shl32 1 14)))
      10 in
  let var3 := mul32 var1 var2 in
  let var4 := shl32 (int32 (h6 c)) 7 in
  let var4 := shr32 (add32 var4 (div32 (mul32 tempScaled (int32 (h7 c))) 100)) 4 in
  let var5 := shr32 (mul32 (shr32 var3 14) (shr32 var3 14)) 10 in
  let var6 := shr32 (mul32 var4 var5) 1 in
  shr32 (mul32 (shr32 (add32 var3 var6) 10) 1000) 12.

(** [compensateHumidityInt]; [raw] and [tFine] are [int32]. *)
Definition compensateHumidityInt (c : calibration68x) (raw tFine : Z) : Z :=
  let calcHum := calcHum_raw c raw tFine in
  let calcHum :=
    if 100000 <? calcHum then 100000
    else if calcHum <? 0 then 0
    else calcHum in
  uint32 calcHum.

(** ** Pressure compensation (binary64) *)

Definition f64 := spec_float.
Definition fadd : f64 -> f64 -> f64 := SFadd 53 1024.
Definition fsub : f64 -> f64 -> f64 := SFsub 53 1024.
Definition fmul : f64 -> f64 -> f64 := SFmul 53 1024.
Definition fdiv : f64 -> f64 -> f64 := SFdiv 53 1024.

(** [float64(z)] for an integer [z], also used for the integer-valued
    literals of the source ([2.0], [64000.0], ...). *)
Definition float64 (z : Z) : f64 := binary_normalize 53 1024 z 0 false.

(** The integer part of a finite float, rounded toward zero. *)
Definition trunc (f : f64) : option Z :=
  match f with
  | S754_zero _ => Some 0
  | S754_finite s m e => Some (cond_Zopp s (Z.shiftl (Zpos m) e))
  | S754_infinity _ | S754_nan => None
  end.

Section Driver.

(** Go leaves the result of a float-to-integer conversion to the
    implementation when the value does not fit (the conversion itself
    still succeeds); [cvt_oor w f] is that result for a [w]-bit target. *)
Variable cvt_oor : Z -> f64 -> Z.

Definition f2i (w : Z) (f : f64) : Z :=
  match trunc f with
  | Some z =>
      if (- 2 ^ (w - 1) <=? z) && (z <? 2 ^ (w - 1)) then z
      else wrapS w (cvt_oor w f)
  | None => wrapS w (cvt_oor w f)
  end.

(** The denominator [var1] as it stands when the guard is evaluated. *)
Definition pressure_var1 (c : calibration68x) (tFine : Z) : f64 :=
  let var1 := fsub (fdiv (float64 tFine) (float64 2)) (float64 64000) in
  let var1 :=
    fdiv
      (fadd (fdiv (fmul (fmul (float64 (p3 c)) var1) var1) (float64 16384))
            (fmul (float64 (p2 c)) var1))
      (float64 524288) in
  fmul (fadd (float64 1) (fdiv var1 (float64 32768))) (float64 (p1 c)).

(** [var2] as it stands when the guard is evaluated. *)
Definition pressure_var2 (c : calibration68x) (tFine : Z) : f64 :=
  let var1 := fsub (fdiv (float64 tFine) (float64 2)) (float64 64000) in
  let var2 := fmul (fmul var1 var1) (fdiv (float64 (p6 c)) (float64 131072)) in
  let var2 := fadd var2 (fmul (fmul var1 (float64 (p5 c))) (float64 2)) in
  fadd (fdiv var2 (float64 4)) (fmul (float64 (p4 c)) (float64 65536)).

(** [compensatePressureFloat]; [raw] and [tFine] are [int32]. *)
Definition compensatePressureFloat (c : calibration68x) (raw tFine : Z) : f64 :=
  let var2 := pressure_var2 c tFine in
  let var1 := pressure_var1 c tFine in
  let calc_pres := fsub (float64 1048576) (float64 raw) in
  if negb (f2i 32 var1 =? 0) then
    let calc_pres :=
      fdiv (fmul (fsub calc_pres (fdiv var2 (float64 4096))) (float64 6250)) var1 in
    let var1 :=
      fdiv (fmul (fmul (float64 (p9 c)) calc_pres) calc_pres) (float64 2147483648) in
    let var2 := fmul calc_pres (fdiv (float64 (p8 c)) (float64 32768)) in
    let var3 :=
      fmul
        (fmul (fmul (fdiv calc_pres (float64 256)) (fdiv calc_pres (float64 256)))
              (fdiv calc_pres (float64 256)))
        (fdiv (float64 (p10 c)) (float64 131072)) in
    fadd calc_pres
      (fdiv (fadd (fadd (fadd var1 var2) var3) (fmul (float64 (p7 c)) (float64 128)))
            (float64 16))
  else float64 0.

(** ** The device, its register reads and the orchestrator *)

(** Scale constants of the [physic] package the driver imports. *)
Record physic_units := {
  MilliCelsius : Z;  (* physic.Temperature, int64 *)
  ZeroCelsius : Z;   (* physic.Temperature, int64 *)
  MicroPascal : Z;   (* physic.Pressure, int64 *)
  MicroRH : Z        (* physic.RelativeHumidity, int32 *)
}.

(** [physic.Env], the reading filled in by the orchestrator. *)
Record Env := {
  Temperature : Z;  (* int64 *)
  Pressure : Z;     (* int64 *)
  Humidity : Z      (* int32 *)
}.

(** Modelled from the spec: the declarations of [Oversampling], [Opts]
    and [Dev] are not part of the file; the orchestrator only tests the
    two optional channels against [Off] and reads [isBME] and [cal68x]. *)
Inductive Oversampling := Off | O1x | O2x | O4x | O8x | O16x.

Definition is_off (o : Oversampling) : bool :=
  match o with Off => true | _ => false end.

Record Opts := {
  opts_Pressure : Oversampling;
  opts_Humidity : Oversampling
}.

Record Dev := {
  isBME : bool;
  opts : Opts;
  cal68x : calibration68x
}.

(** The transport error type and the register-read capability:
    [bus reg n] is what one read of [n] bytes starting at register [reg]
    yields. *)
Variable error : Type.
Variable bus : Z -> nat -> error + list byte.
Variable phy : physic_units.

(** Go's [copy(dst, src)]: the first [min (len dst) (len src)] bytes are
    overwritten and [dst] keeps its length. *)
Definition copy (dst src : list byte) : list byte :=
  firstn (length dst) src ++ skipn (length src) dst.

(** The log of register reads issued: start address and byte count. *)
Definition reads := list (Z * nat).

(** [d.readReg(reg, b)]: one read that fills [b] in place. *)
Definition readReg (reg : Z) (b : list byte) (log : reads)
  : reads * (list byte * option error) :=
  (log ++ [(reg, length b)],
   match bus reg (length b) with
   | inl err => (b, Some err)
   | inr data => (copy b data, None)
   end).

(** [buf[i]] on the fixed array [buf]. *)
Definition at_ (buf : list byte) (i : nat) : byte := nth i buf x00.

(** [int32(b0)<<12 | int32(b1)<<4 | int32(b2)>>4] *)
Definition raw20 (b0 b1 b2 : byte) : Z :=
  Z.lor (Z.lor (shl32 (int32 (b2z b0)) 12) (shl32 (int32 (b2z b1)) 4))
        (shr32 (int32 (b2z b2)) 4).

Definition pRaw_of (buf : list byte) : Z := raw20 (at_ buf 0) (at_ buf 1) (at_ buf 2).
Definition tRaw_of (buf : list byte) : Z := raw20 (at_ buf 3) (at_ buf 4) (at_ buf 5).

(** [int32(buf[6])<<8 | int32(buf[7])] *)
Definition hRaw_of (buf : list byte) : Z :=
  Z.lor (shl32 (int32 (b2z (at_ buf 6))) 8) (int32 (b2z (at_ buf 7))).

(** [physic.Temperature(t)*10*physic.MilliCelsius + physic.ZeroCelsius] *)
Definition scale_temperature (t : Z) : Z :=
  int64 (int64 (int64 (int64 t * 10) * MilliCelsius phy) + ZeroCelsius phy).

(** [physic.Pressure(p*256) * 15625 * physic.MicroPascal / 4] *)
Definition scale_pressure (p : f64) : Z :=
  int64 (Z.quot (int64 (int64 (f2i 64 (fmul p (float64 256)) * 15625) * MicroPascal phy)) 4).

(** [h * 10000 / 1024 * physic.MicroRH] for
    [h := physic.RelativeHumidity(...)] *)
Definition scale_humidity (hum : Z) : Z :=
  let h := int32 hum in
  mul32 (div32 (mul32 h 10000) 1024) (MicroRH phy).

(** Length of [b]: [buf[:]] on a BME device, [buf[:6]] otherwise. *)
Definition read_len (d : Dev) : nat := if isBME d then 8%nat else 6%nat.

(** [sense68x]: [b] aliases the first [read_len d] bytes of [buf], so
    the read into [b] changes [buf]. The reading [e] is updated in
    place; the result pairs the reading after the call with the
    returned error. *)
Definition sense68x (d : Dev) (e : Env) (log : reads)
  : reads * (Env * option error) :=
  let buf := repeat x00 8 in
  let n := read_len d in
  let '(log, (b, err)) := readReg 31 (firstn n buf) log in
  let buf := b ++ skipn n buf in
  match err with
  | Some err => (log, (e, Some err))
  | None =>
      let pRaw := pRaw_of buf in
      let tRaw := tRaw_of buf in
      let '(t, tFine) := compensateTempInt (cal68x d) tRaw in
      let e := {| Temperature := scale_temperature t;
                  Pressure := Pressure e; Humidity := Humidity e |} in
      let e :=
        if negb (is_off (opts_Pressure (opts d))) then
          let p := compensatePressureFloat (cal68x d) pRaw tFine in
          {| Temperature := Temperature e;
             Pressure := scale_pressure p; Humidity := Humidity e |}
        else e in
      let e :=
        if negb (is_off (opts_Humidity (opts d))) then
          let hRaw := hRaw_of buf in
          let h := compensateHumidityInt (cal68x d) hRaw tFine in
          {| Temperature := Temperature e;
             Pressure := Pressure e; Humidity := scale_humidity h |}
        else e in
      (log, (e, None))
  end.

(** [isIdle68x] *)
Definition isIdle68x (log : reads) : reads * (bool * option error) :=
  let v := [x00] in
  let '(log, (v, err)) := readReg 29 v log in
  match err with
  | Some err => (log, (false, Some err))
  | None => (log, (Z.land (b2z (at_ v 0)) 60 =? 0, None))
  end.

End Driver.


Arguments readReg {error} bus reg b log.
Arguments sense68x cvt_oor {error} bus phy d e log.
Arguments isIdle68x {error} bus log.

(** ** The documented extraction formulas *)

(** Numeric value of the byte at offset [i] of a block. *)
Definition byte_at (s : list byte) (i : nat) : Z := b2z (nth i s x00).

(** Little-endian combine of two byte values. *)
Definition le16 (lo hi : Z) : Z := Z.lor lo (Z.shiftl hi 8).

(** The coefficient set as the register documentation gives it: an
    unsigned field is the combined value, a signed field of [w] bits is
    its two's-complement reading. *)
Definition documented_coefficients (tph h : list byte) : calibration68x :=
  {| t1 := le16 (byte_at h 8) (byte_at h 9);
     t2 := wrapS 16 (le16 (byte_at tph 0) (byte_at tph 1));
     t3 := wrapS 8 (byte_at tph 2);
     p1 := le16 (byte_at tph 4) (byte_at tph 5);
     p2 := wrapS 16 (le16 (byte_at tph 6) (byte_at tph 7));
     p4 := wrapS 16 (le16 (byte_at tph 10) (byte_at tph 11));
     p5 := wrapS 16 (le16 (byte_at tph 12) (byte_at tph 13));
     p8 := wrapS 16 (le16 (byte_at tph 18) (byte_at tph 19));
     p9 := wrapS 16 (le16 (byte_at tph 20) (byte_at tph 21));
     p3 := wrapS 8 (byte_at tph 8);
     p6 := wrapS 8 (byte_at tph 15);
     p7 := wrapS 8 (byte_at tph 14);
     p10 := byte_at tph 22;
     h1 := Z.lor (Z.land (byte_at h 1) 15) (Z.shiftl (byte_at h 2) 4);
     h2 := Z.lor (Z.shiftr (byte_at h 1) 4) (Z.shiftl (byte_at h 0) 4);
     h3 := wrapS 8 (byte_at h 3);
     h4 := wrapS 8 (byte_at h 4);
     h5 := wrapS 8 (byte_at h 5);
     h7 := wrapS 8 (byte_at h 7);
     h6 := byte_at h 6 |}.

(** The buffer a logged read was made on. *)
Definition slice_of (tph h : list byte) (b : block) : list byte :=
  match b with Tph => tph | Hum => h end.

(** Every logged index read was inside its buffer. *)
Definition reads_in_range (tph h : list byte) (log : list (block * nat)) : Prop :=
  Forall (fun a => (snd a < length (slice_of tph h (fst a)))%nat) log.

(** A parse that is refused before any byte of either buffer is read:
    it fails and its read log is empty. *)
Definition rejected_before_indexing (r : list (block * nat) * outcome calibration68x)
  : Prop :=
  fst r = [] /\ exists b i n, snd r = IndexPanic b i n.

(** The measurement buffer [buf] of [sense68x] after a read of [n] bytes
    that delivered [data]. *)
Definition buf_after (n : nat) (data : list byte) : list byte :=
  copy (firstn n (repeat x00 8)) data ++ skipn n (repeat x00 8).

(** ** Sample inputs *)

Definition sample_tph : list byte :=
  [x02; x67; x03; x00; xa6; x8d; x7d; xd7; x58; x00; x8e; x1c;
   x7f; xff; x2e; x1e; x00; x00; x97; xf3; xb5; xf6; x1e].

Definition sample_hum : list byte :=
  [x3e; xfa; x31; x00; x2d; x14; x78; x9c; x0d; x66].

Definition sample_cal : calibration68x :=
  {| t1 := 26125; t2 := 26370; t3 := 3;
     p1 := 36262; p2 := -10371; p4 := 7310; p5 := -129; p8 := -3177; p9 := -2379;
     p3 := 88; p6 := 30; p7 := 46; p10 := 30;
     h1 := 794; h2 := 1007; h3 := 0; h4 := 45; h5 := 20; h7 := -100; h6 := 120 |}.

(** The sample tph block, one byte short. *)
Definition short_tph : list byte := firstn 22 sample_tph.

(** A coefficient set whose pressure denominator is zero. *)
Definition zero_cal : calibration68x :=
  {| t1 := 0; t2 := 0; t3 := 0;
     p1 := 0; p2 := 0; p4 := 0; p5 := 0; p8 := 0; p9 := 0;
     p3 := 0; p6 := 0; p7 := 0; p10 := 0;
     h1 := 0; h2 := 0; h3 := 0; h4 := 0; h5 := 0; h7 := 0; h6 := 0 |}.

(** A coefficient set whose pressure denominator is a little below one
    at [tFine = 116000]. *)
Definition tiny_cal : calibration68x :=
  {| t1 := 0; t2 := 0; t3 := 0;
     p1 := 1; p2 := 1; p4 := 0; p5 := 0; p8 := 0; p9 := 0;
     p3 := 0; p6 := 0; p7 := 0; p10 := 0;
     h1 := 0; h2 := 0; h3 := 0; h4 := 0; h5 := 0; h7 := 0; h6 := 0 |}.

(** Pressure [0x61a80], temperature [0x77a50], humidity [0x4e20]. *)
Definition sample_regs : list byte := [x61; xa8; x00; x77; xa5; x00; x4e; x20].

Inductive bus_error := Nack.

(** A register file: the measurement block at [0x1F], the status byte at
    [0x1D], no other register. *)
Definition sample_bus (status : byte) (reg : Z) (n : nat) : bus_error + list byte :=
  if reg =? 31 then inr (firstn n sample_regs)
  else if reg =? 29 then inr [status]
  else inl Nack.

Definition dead_bus (reg : Z) (n : nat) : bus_error + list byte := inl Nack.

(** The values of the scale constants in [periph.io/x/conn/v3/physic]. *)
Definition periph_units : physic_units :=
  {| MilliCelsius := 1000000; ZeroCelsius := 273150000000;
     MicroPascal := 1000; MicroRH := 10 |}.

(** An out-of-range conversion that yields the smallest integer. *)
Definition cvt_min (w : Z) (f : f64) : Z := - 2 ^ (w - 1).

Definition sample_dev (pressure humidity : Oversampling) : Dev :=
  {| isBME := true;
     opts := {| opts_Pressure := pressure; opts_Humidity := humidity |};
     cal68x := sample_cal |}.

Definition empty_env : Env := {| Temperature := 0; Pressure := 0; Humidity := 0 |}.

(** ** Index expressions of the parser *)

(** The thirty index expressions of [newCalibration68x], in source order
    ([h[1]] occurs twice, [tph[15]] precedes [tph[14]]). *)
Definition source_reads : list (block * nat) :=
  [(Hum, 8); (Hum, 9); (Tph, 0); (Tph, 1); (Tph, 2); (Tph, 4); (Tph, 5);
   (Tph, 6); (Tph, 7); (Tph, 8); (Tph, 10); (Tph, 11); (Tph, 12); (Tph, 13);
   (Tph, 15); (Tph, 14); (Tph, 18); (Tph, 19); (Tph, 20); (Tph, 21); (Tph, 22);
   (Hum, 1); (Hum, 2); (Hum, 1); (Hum, 0); (Hum, 3); (Hum, 4); (Hum, 5);
   (Hum, 6); (Hum, 7)]%nat.

(** ** Offsets read by the parser *)

(** The tph offsets [newCalibration68x] indexes, in source order. *)
Definition used_tph : list nat :=
  [0; 1; 2; 4; 5; 6; 7; 8; 10; 11; 12; 13; 15; 14; 18; 19; 20; 21; 22]%nat.

(** The humidity-block offsets it indexes, in source order. *)
Definition used_hum : list nat := [8; 9; 1; 2; 0; 3; 4; 5; 6; 7]%nat.

(** Two buffers hold the same byte at each of the given offsets. *)
Definition agree_on (offs : list nat) (s s' : list byte) : Prop :=
  Forall (fun i => nth i s x00 = nth i s' x00) offs.

(** The sample tph block with other reserved bytes and a longer tail. *)
Definition padded_tph : list byte :=
  [x02; x67; x03; xff; xa6; x8d; x7d; xd7; x58; xee; x8e; x1c;
   x7f; xff; x2e; x1e; xdd; xcc; x97; xf3; xb5; xf6; x1e; xaa; xbb].

Definition padded_hum : list byte := sample_hum ++ [x55].

(** A device without humidity sensor on which humidity is requested. *)
Definition bmp_dev : Dev :=
  {| isBME := false;
     opts := {| opts_Pressure := O1x; opts_Humidity := O1x |};
     cal68x := sample_cal |}.

(** A BME device with pressure requested whose coefficients are all
    zero. *)
Definition zero_dev : Dev :=
  {| isBME := true;
     opts := {| opts_Pressure := O1x; opts_Humidity := Off |};
     cal68x := zero_cal |}.

Definition used_env : Env := {| Temperature := 1; Pressure := 2; Humidity := 3 |}.

(** * Properties *)

(** ** Fixed-width arithmetic *)

Lemma b2z_range (b : byte) : 0 <= b2z b < 256.
Proof.
  unfold b2z. pose proof (Byte.to_N_bounded b) as Hb. lia.
Qed.

Lemma pow2_double (w : Z) : 0 < w -> 2 ^ w = 2 * 2 ^ (w - 1).
Proof.
  intros Hw. rewrite <- Z.pow_succ_r by lia. f_equal. lia.
Qed.

Lemma wrapS_small (w x : Z) : 0 < w -> inS w x -> wrapS w x = x.
Proof.
  unfold inS, wrapS. intros Hw Hx.
  rewrite (pow2_double w Hw). rewrite Z.mod_small; lia.
Qed.

Lemma wrapS_high (w x : Z) :
  0 < w -> 2 ^ (w - 1) <= x < 2 ^ w -> wrapS w x = x - 2 ^ w.
Proof.
  unfold wrapS. intros Hw. rewrite (pow2_double w Hw). intros Hx.
  replace (x + 2 ^ (w - 1)) with (x - 2 ^ (w - 1) + 1 * (2 * 2 ^ (w - 1))) by lia.
  rewrite Z.mod_add by lia. rewrite Z.mod_small; lia.
Qed.

Lemma wrapS_range (w x : Z) : 0 < w -> inS w (wrapS w x).
Proof.
  unfold inS, wrapS. intros Hw.
  assert (0 < 2 ^ (w - 1)) by (apply Z.pow_pos_nonneg; lia).
  pose proof (Z.mod_pos_bound (x + 2 ^ (w - 1)) (2 ^ w)) as Hm.
  rewrite (pow2_double w Hw) in *. lia.
Qed.

Lemma wrapU_small (w x : Z) : inU w x -> wrapU w x = x.
Proof. unfold inU, wrapU. intros. apply Z.mod_small. assumption. Qed.

Lemma int16_small x : - 32768 <= x < 32768 -> int16 x = x.
Proof. intros H. apply wrapS_small; [lia | exact H]. Qed.

Lemma int32_small x : - 2147483648 <= x < 2147483648 -> int32 x = x.
Proof. intros H. apply wrapS_small; [lia | exact H]. Qed.

Lemma int64_small x :
  - 9223372036854775808 <= x < 9223372036854775808 -> int64 x = x.
Proof. intros H. apply wrapS_small; [lia | exact H]. Qed.

Lemma uint16_small x : 0 <= x < 65536 -> uint16 x = x.
Proof. intros H. apply wrapU_small. exact H. Qed.

Lemma uint32_small x : 0 <= x < 4294967296 -> uint32 x = x.
Proof. intros H. apply wrapU_small. exact H. Qed.

(** Wrap-around is a ring morphism up to a final wrap. *)
Lemma wrapS_add_l (w x y : Z) : 0 < w -> wrapS w (wrapS w x + y) = wrapS w (x + y).
Proof.
  intros Hw. unfold wrapS. f_equal.
  assert (0 < 2 ^ w) by (apply Z.pow_pos_nonneg; lia).
  replace ((x + 2 ^ (w - 1)) mod 2 ^ w - 2 ^ (w - 1) + y + 2 ^ (w - 1))
    with ((x + 2 ^ (w - 1)) mod 2 ^ w + y) by lia.
  rewrite Z.add_mod_idemp_l by lia. f_equal. lia.
Qed.

Lemma shiftr_bounds (x k lo hi : Z) :
  0 <= k -> lo * 2 ^ k <= x < hi * 2 ^ k -> lo <= Z.shiftr x k < hi.
Proof.
  intros Hk [Hlo Hhi].
  assert (0 < 2 ^ k) by (apply Z.pow_pos_nonneg; lia).
  rewrite Z.shiftr_div_pow2 by exact Hk. split.
  - apply Z.div_le_lower_bound; lia.
  - apply Z.div_lt_upper_bound; lia.
Qed.

Lemma shiftl_mul (x k : Z) : 0 <= k -> Z.shiftl x k = x * 2 ^ k.
Proof. intros. apply Z.shiftl_mul_pow2. assumption. Qed.

(** Bits below [2 ^ k] and a multiple of [2 ^ k] do not overlap. *)
Lemma lor_disjoint (k lo m : Z) :
  0 <= k -> 0 <= lo < 2 ^ k -> Z.lor lo (m * 2 ^ k) = lo + m * 2 ^ k.
Proof.
  intros Hk Hlo. rewrite <- Z.add_lor_land.
  assert (Hand : Z.land lo (m * 2 ^ k) = 0).
  { apply Z.bits_inj'. intros n Hn.
    rewrite Z.land_spec, Z.bits_0.
    destruct (Z.ltb_spec n k) as [Hlt | Hge].
    - rewrite <- Z.shiftl_mul_pow2 by exact Hk.
      rewrite Z.shiftl_spec_low by exact Hlt. apply andb_false_r.
    - rewrite <- (Z.mod_small lo (2 ^ k)) by exact Hlo.
      rewrite Z.mod_pow2_bits_high by lia. reflexivity. }
  rewrite Hand. lia.
Qed.

(** ** Temperature compensation *)

(** With a 20-bit raw code and coefficients in the range of their types no
    [int64] operation of [compensateTempInt] wraps, and neither conversion
    to [int32] truncates. *)
Lemma compensateTempInt_exact (c : calibration68x) (raw : Z) :
  inU 16 (t1 c) -> inS 16 (t2 c) -> inS 8 (t3 c) -> 0 <= raw < 2 ^ 20 ->
  let v1 := Z.shiftr raw 3 - Z.shiftl (t1 c) 1 in
  let v2 := Z.shiftr (v1 * t2 c) 11 in
  let v3 :=
    Z.shiftr (Z.shiftr (Z.shiftr v1 1 * Z.shiftr v1 1) 12 * Z.shiftl (t3 c) 4) 14 in
  let tFine := v2 + v3 in
  compensateTempInt c raw = (Z.shiftr (tFine * 5 + 128) 8, tFine)
  /\ - 2228225 <= tFine < 2228225.
Proof.
  unfold inU, inS. intros H1 H2 H3 Hraw.
  change (2 ^ 16) with 65536 in H1. change (2 ^ (16 - 1)) with 32768 in H2.
  change (2 ^ (8 - 1)) with 128 in H3. change (2 ^ 20) with 1048576 in Hraw.
  assert (Ha : 0 <= Z.shiftr raw 3 < 131072) by (apply shiftr_bounds; lia).
  assert (Hb : Z.shiftl (t1 c) 1 = t1 c * 2) by (apply shiftl_mul; lia).
  assert (Hc : Z.shiftl (t3 c) 4 = t3 c * 16) by (apply shiftl_mul; lia).
  cbv zeta. unfold compensateTempInt, centiCelsius_of.
  rewrite (int64_small raw) by lia.
  rewrite (int64_small (t1 c)) by lia.
  rewrite (int64_small (t2 c)) by lia.
  rewrite (int64_small (t3 c)) by lia.
  rewrite (int64_small (Z.shiftl (t1 c) 1)) by lia.
  rewrite (int64_small (Z.shiftl (t3 c) 4)) by lia.
  set (v1 := Z.shiftr raw 3 - Z.shiftl (t1 c) 1).
  assert (Hv1 : - 131070 <= v1 <= 131071) by (unfold v1; lia).
  rewrite (int64_small v1) by lia.
  assert (Hp : - 4294934528 <= v1 * t2 c <= 4294934528) by nia.
  rewrite (int64_small (v1 * t2 c)) by lia.
  set (v2 := Z.shiftr (v1 * t2 c) 11).
  assert (Hv2 : - 2097152 <= v2 < 2097152)
    by (unfold v2; apply shiftr_bounds; lia).
  set (hv := Z.shiftr v1 1).
  assert (Hhv : - 65535 <= hv < 65536) by (unfold hv; apply shiftr_bounds; lia).
  assert (Hsq : 0 <= hv * hv <= 4294967296) by nia.
  rewrite (int64_small (hv * hv)) by lia.
  set (sq := Z.shiftr (hv * hv) 12).
  assert (Hs : 0 <= sq < 1048577) by (unfold sq; apply shiftr_bounds; lia).
  rewrite Hc.
  assert (Hq : - 2147485696 <= sq * (t3 c * 16) <= 2147485696) by nia.
  rewrite (int64_small (sq * (t3 c * 16))) by lia.
  set (v3 := Z.shiftr (sq * (t3 c * 16)) 14).
  assert (Hv3 : - 131073 <= v3 < 131073)
    by (unfold v3; apply shiftr_bounds; lia).
  rewrite (int64_small (v2 + v3)) by lia.
  rewrite (int64_small ((v2 + v3) * 5)) by lia.
  rewrite (int64_small ((v2 + v3) * 5 + 128)) by lia.
  assert (Hce : - 84480 <= Z.shiftr ((v2 + v3) * 5 + 128) 8 < 84481)
    by (apply shiftr_bounds; lia).
  rewrite (int32_small (v2 + v3)) by lia.
  rewrite (int32_small (Z.shiftr _ 8)) by lia.
  split; [reflexivity | lia].
Qed.

(** C3. For a 20-bit unsigned raw code and coefficients [t1] (uint16),
    [t2] (int16), [t3] (int8), [compensateTempInt] returns the pair
    [(centiCelsius, tFine)] of the documented formula,
    [v1 = (raw >> 3) - (t1 << 1)], [v2 = (v1 * t2) >> 11],
    [v3 = ((((v1 >> 1) * (v1 >> 1)) >> 12) * (t3 << 4)) >> 14],
    [tFine = v2 + v3], [centiCelsius = (tFine * 5 + 128) >> 8], read over
    the integers: the 64-bit intermediates never wrap and the results fit
    32 bits. *)
Theorem compensateTempInt_formula (c : calibration68x) (raw : Z) :
  inU 16 (t1 c) -> inS 16 (t2 c) -> inS 8 (t3 c) -> 0 <= raw < 2 ^ 20 ->
  let v1 := Z.shiftr raw 3 - Z.shiftl (t1 c) 1 in
  let v2 := Z.shiftr (v1 * t2 c) 11 in
  let v3 :=
    Z.shiftr (Z.shiftr (Z.shiftr v1 1 * Z.shiftr v1 1) 12 * Z.shiftl (t3 c) 4) 14 in
  let tFine := v2 + v3 in
  let centiCelsius := Z.shiftr (tFine * 5 + 128) 8 in
  compensateTempInt c raw = (centiCelsius, tFine)
  /\ inS 32 centiCelsius /\ inS 32 tFine.
Proof.
  intros H1 H2 H3 Hraw.
  destruct (compensateTempInt_exact c raw H1 H2 H3 Hraw) as [Heq Hb].
  cbv zeta in *. split; [exact Heq | ].
  unfold inS. change (2 ^ (32 - 1)) with 2147483648. split; [ | lia].
  apply shiftr_bounds; lia.
Qed.

Lemma compensateTempInt_formula_witness :
  compensateTempInt sample_cal 490064 = (2266, 116000).
Proof.
  refine (proj1 (compensateTempInt_formula sample_cal 490064 _ _ _ _));
    unfold inU, inS; simpl; lia.
Defined.

(** ** One scaled temperature on both paths *)




(** ** Humidity compensation *)

(** C5. The result of [compensateHumidityInt] lies in [0, 100000] for all
    arguments; it is exactly 100000 when the value computed before the cap
    exceeds 100000, exactly 0 when that value is negative, and that value
    itself otherwise. The function has no failing path. *)
Theorem compensateHumidityInt_clamped (c : calibration68x) (raw tFine : Z) :
  0 <= compensateHumidityInt c raw tFine <= 100000
  /\ (100000 < calcHum_raw c raw tFine -> compensateHumidityInt c raw tFine = 100000)
  /\ (calcHum_raw c raw tFine < 0 -> compensateHumidityInt c raw tFine = 0)
  /\ (0 <= calcHum_raw c raw tFine <= 100000 ->
      compensateHumidityInt c raw tFine = calcHum_raw c raw tFine).
Proof.
  unfold compensateHumidityInt. cbv zeta.
  set (v := calcHum_raw c raw tFine).
  destruct (Z.ltb_spec 100000 v) as [Hhi | Hhi].
  - rewrite uint32_small by lia. repeat split; lia.
  - destruct (Z.ltb_spec v 0) as [Hlo | Hlo].
    + rewrite uint32_small by lia. repeat split; lia.
    + rewrite uint32_small by lia. repeat split; lia.
Qed.

(** Both ends of the cap are reached on the sample coefficients. *)
Example compensateHumidityInt_cap_high :
  calcHum_raw sample_cal 65535 116000 = 103891
  /\ compensateHumidityInt sample_cal 65535 116000 = 100000.
Proof. split; vm_compute; reflexivity. Qed.

Example compensateHumidityInt_cap_low :
  calcHum_raw sample_cal 0 116000 = - 35234
  /\ compensateHumidityInt sample_cal 0 116000 = 0.
Proof. split; vm_compute; reflexivity. Qed.

(** ** Calibration parsing *)

Lemma lor_byte (lo m : Z) : 0 <= lo < 256 -> Z.lor lo (m * 256) = lo + m * 256.
Proof. intros H. apply (lor_disjoint 8 lo m); [lia | exact H]. Qed.

Lemma le16_sum (lo hi : Z) : 0 <= lo < 256 -> le16 lo hi = lo + hi * 256.
Proof.
  intros H. unfold le16. rewrite shiftl_mul by lia.
  change (2 ^ 8) with 256. apply lor_byte. exact H.
Qed.

Lemma le_u16_spec (lo hi : byte) : le_u16 lo hi = le16 (b2z lo) (b2z hi).
Proof.
  pose proof (b2z_range lo). pose proof (b2z_range hi).
  unfold le_u16, le16.
  rewrite (uint16_small (b2z lo)) by lia.
  rewrite (uint16_small (b2z hi)) by lia.
  rewrite uint16_small; [reflexivity | ].
  rewrite shiftl_mul by lia. change (2 ^ 8) with 256. lia.
Qed.

Lemma le_i16_spec (lo hi : byte) :
  le_i16 lo hi = wrapS 16 (le16 (b2z lo) (b2z hi)).
Proof.
  pose proof (b2z_range lo) as Hlo. pose proof (b2z_range hi) as Hhi.
  rewrite le16_sum by exact Hlo. unfold le_i16.
  rewrite (int16_small (b2z lo)) by lia.
  rewrite (int16_small (b2z hi)) by lia.
  rewrite shiftl_mul by lia. change (2 ^ 8) with 256.
  destruct (Z.lt_ge_cases (b2z hi) 128) as [Hs | Hs].
  - rewrite int16_small by lia. rewrite lor_byte by exact Hlo.
    symmetry. apply wrapS_small; [lia | ].
    unfold inS. change (2 ^ (16 - 1)) with 32768. lia.
  - unfold int16. rewrite (wrapS_high 16 (b2z hi * 256)).
    + change (2 ^ 16) with 65536.
      replace (b2z hi * 256 - 65536) with ((b2z hi - 256) * 256) by lia.
      rewrite lor_byte by exact Hlo.
      rewrite (wrapS_high 16 (b2z lo + b2z hi * 256)).
      * change (2 ^ 16) with 65536. lia.
      * lia.
      * change (2 ^ (16 - 1)) with 32768. change (2 ^ 16) with 65536. lia.
    + lia.
    + change (2 ^ (16 - 1)) with 32768. change (2 ^ 16) with 65536. lia.
Qed.

Lemma nibble_hi_spec (b : byte) :
  uint16 (Z.shiftl (uint16 (b2z b)) 4) = Z.shiftl (b2z b) 4.
Proof.
  pose proof (b2z_range b).
  rewrite (uint16_small (b2z b)) by lia. apply uint16_small.
  rewrite shiftl_mul by lia. change (2 ^ 4) with 16. lia.
Qed.

Lemma index_ok (b : block) (s : list byte) (i : nat) (log : list (block * nat)) :
  (i < length s)%nat ->
  index b s i log = (log ++ [(b, i)], Returned (nth i s x00)).
Proof.
  intros Hi. unfold index.
  destruct (nth_error s i) as [x | ] eqn:E.
  - rewrite (nth_error_nth s i x00 E). reflexivity.
  - apply nth_error_None in E. lia.
Qed.

Lemma index_fail (b : block) (s : list byte) (i : nat) (log : list (block * nat)) :
  (length s <= i)%nat -> index b s i log = (log, IndexPanic b i (length s)).
Proof.
  intros Hi. unfold index.
  apply nth_error_None in Hi. rewrite Hi. reflexivity.
Qed.

Lemma bind_index_ok {A} (b : block) (s : list byte) (i : nat)
      (k : byte -> M A) (log : list (block * nat)) :
  (i < length s)%nat ->
  (x <- index b s i ;; k x) log = k (nth i s x00) (log ++ [(b, i)]).
Proof.
  intros Hi. unfold bind. rewrite index_ok by exact Hi. reflexivity.
Qed.

Lemma bind_index_fail {A} (b : block) (s : list byte) (i : nat)
      (k : byte -> M A) (log : list (block * nat)) :
  (length s <= i)%nat ->
  (x <- index b s i ;; k x) log = (log, IndexPanic b i (length s)).
Proof.
  intros Hi. unfold bind. rewrite index_fail by exact Hi. reflexivity.
Qed.

(** C2. For a tph block of at least 23 bytes and a humidity block of at
    least 10 bytes, [newCalibration68x] returns, and every coefficient
    equals its documented bit-extraction formula
    ([documented_coefficients]); all index reads it made were in range. *)
Theorem newCalibration68x_documented (tph h : list byte) :
  (23 <= length tph)%nat -> (10 <= length h)%nat ->
  exists log,
    run (newCalibration68x tph h) = (log, Returned (documented_coefficients tph h))
    /\ reads_in_range tph h log.
Proof.
  intros Ht Hh. unfold run, newCalibration68x.
  rewrite !bind_index_ok by lia. cbv zeta. unfold ret.
  eexists. split.
  - f_equal. f_equal. unfold documented_coefficients, byte_at.
    rewrite !le_u16_spec, !le_i16_spec, !nibble_hi_spec.
    pose proof (b2z_range (nth 1 h x00)) as H1.
    rewrite (uint16_small (b2z (nth 1 h x00))) by lia.
    reflexivity.
  - unfold reads_in_range. cbn [app].
    repeat (apply Forall_cons; [cbn [fst snd slice_of]; lia | ]).
    apply Forall_nil.
Qed.

Lemma newCalibration68x_documented_witness :
  exists log,
    run (newCalibration68x sample_tph sample_hum)
    = (log, Returned (documented_coefficients sample_tph sample_hum))
    /\ reads_in_range sample_tph sample_hum log.
Proof.
  apply (newCalibration68x_documented sample_tph sample_hum); simpl; lia.
Defined.

(** The sample blocks decode to the sample coefficients. *)
Example newCalibration68x_sample :
  snd (run (newCalibration68x sample_tph sample_hum)) = Returned sample_cal.
Proof. vm_compute. reflexivity. Qed.

(** Whatever the bytes are, the documented coefficients lie in the ranges
    of their field types, [h1] and [h2] within 12 bits. *)
Lemma documented_coefficients_in_range (tph h : list byte) :
  cal_in_range (documented_coefficients tph h)
  /\ h1 (documented_coefficients tph h) < 2 ^ 12
  /\ h2 (documented_coefficients tph h) < 2 ^ 12.
Proof.
  assert (Hb : forall s i, 0 <= byte_at s i < 256)
    by (intros s i; apply b2z_range).
  assert (Hle : forall s i j, inU 16 (le16 (byte_at s i) (byte_at s j))).
  { intros s i j. rewrite le16_sum by apply Hb.
    pose proof (Hb s i). pose proof (Hb s j).
    unfold inU. change (2 ^ 16) with 65536. lia. }
  assert (Hw16 : forall x, inS 16 (wrapS 16 x)) by (intros x; apply wrapS_range; lia).
  assert (Hw8 : forall x, inS 8 (wrapS 8 x)) by (intros x; apply wrapS_range; lia).
  assert (Hu8 : forall s i, inU 8 (byte_at s i)) by (intros s i; apply Hb).
  assert (H1 : 0 <= h1 (documented_coefficients tph h) < 2 ^ 12).
  { cbn [h1 documented_coefficients].
    pose proof (Hb h 1%nat) as Ha. pose proof (Hb h 2%nat) as Hc.
    change 15 with (Z.ones 4). rewrite Z.land_ones by lia.
    rewrite shiftl_mul by lia.
    pose proof (Z.mod_pos_bound (byte_at h 1) (2 ^ 4)) as Hm.
    rewrite lor_disjoint by lia. lia. }
  assert (H2 : 0 <= h2 (documented_coefficients tph h) < 2 ^ 12).
  { cbn [h2 documented_coefficients].
    pose proof (Hb h 1%nat) as Ha. pose proof (Hb h 0%nat) as Hc.
    rewrite shiftl_mul by lia.
    assert (Hq : 0 <= Z.shiftr (byte_at h 1) 4 < 2 ^ 4)
      by (apply shiftr_bounds; lia).
    rewrite lor_disjoint by lia. lia. }
  split; [ | lia].
  unfold cal_in_range. cbn [documented_coefficients t1 t2 t3 p1 p2 p3 p4 p5 p6 p7 p8
                            p9 p10 h3 h4 h5 h6 h7].
  repeat split;
    try apply Hle; try apply Hw16; try apply Hw8; try apply Hu8;
    change (2 ^ 16) with 65536; lia.
Qed.

(** The claim that short buffers are refused before any byte is read,
    refuted: with a tph block of 22 bytes (and a humidity block of 10)
    the parse completes twenty index reads and then panics on [tph[22]]. *)
Lemma newCalibration68x_tph22_reads_then_panics :
  length short_tph = 22%nat
  /\ run (newCalibration68x short_tph sample_hum)
     = ([(Hum, 8); (Hum, 9); (Tph, 0); (Tph, 1); (Tph, 2); (Tph, 4); (Tph, 5);
         (Tph, 6); (Tph, 7); (Tph, 8); (Tph, 10); (Tph, 11); (Tph, 12);
         (Tph, 13); (Tph, 15); (Tph, 14); (Tph, 18); (Tph, 19); (Tph, 20);
         (Tph, 21)]%nat,
        IndexPanic Tph 22 22)
  /\ ~ (forall tph h : list byte,
         (length tph < 23 \/ length h < 9)%nat ->
         rejected_before_indexing (run (newCalibration68x tph h))).
Proof.
  split; [reflexivity | ]. split; [vm_compute; reflexivity | ].
  intros Hall.
  destruct (Hall short_tph sample_hum) as [Hlog _].
  - left. simpl. lia.
  - vm_compute in Hlog. discriminate Hlog.
Qed.

Ltac destruct_list l n tac :=
  lazymatch n with
  | O => idtac
  | S ?n' => destruct l as [ | ? l]; [tac | destruct_list l n' tac]
  end.

Ltac first_bad_index :=
  repeat (rewrite bind_index_ok by (cbn [length]; lia));
  rewrite bind_index_fail by (cbn [length]; lia).

Ltac panic_case :=
  unfold run, newCalibration68x; first_bad_index;
  lazymatch goal with
  | |- exists _ _ _, (?L, IndexPanic ?B ?I _) = _ /\ _ =>
      let k := eval cbn [app length] in (length L) in exists k, B, I
  end;
  split; [reflexivity | ];
  split; [reflexivity | ];
  cbn [slice_of length]; split; [lia | ]; split;
  [ unfold reads_in_range; cbn [firstn source_reads];
    repeat (apply Forall_cons; [cbn [fst snd slice_of length]; lia | ]);
    apply Forall_nil
  | intros H22 H10; cbn [length] in H22, H10;
    first [ lia | repeat split; reflexivity ] ].

(** C1, as the code has it. If the tph block has fewer than 23 bytes or
    the humidity block fewer than 10, [newCalibration68x] does not return:
    it stops with the run-time panic of the first index expression, in
    source order, whose index is not below the length of its buffer. With
    [k] the position of that expression in [source_reads], the reads made
    are exactly the [k] expressions before it, in that order, all of them
    in range, so no byte outside a buffer is ever read; the panic carries
    the index of expression [k] and the length of its buffer. With a tph
    block of exactly 22 bytes (and a humidity block of at least 10) the
    panic is the one of [tph[22]], reached after twenty reads. *)
Theorem newCalibration68x_short_buffer_panics (tph h : list byte) :
  (length tph < 23 \/ length h < 10)%nat ->
  exists k b i,
    run (newCalibration68x tph h)
    = (firstn k source_reads, IndexPanic b i (length (slice_of tph h b)))
    /\ nth_error source_reads k = Some (b, i)
    /\ (length (slice_of tph h b) <= i)%nat
    /\ reads_in_range tph h (firstn k source_reads)
    /\ (length tph = 22%nat -> (10 <= length h)%nat ->
        b = Tph /\ i = 22%nat /\ k = 20%nat).
Proof.
  intros Hshort.
  destruct (Nat.lt_ge_cases (length h) 10) as [Hh | Hh].
  - clear Hshort.
    destruct_list h 10%nat panic_case.
    cbn [length] in Hh. lia.
  - assert (Ht : (length tph < 23)%nat) by lia. clear Hshort.
    destruct_list tph 23%nat panic_case.
    cbn [length] in Ht. lia.
Qed.

Lemma newCalibration68x_short_buffer_panics_witness :
  exists k b i,
    run (newCalibration68x short_tph sample_hum)
    = (firstn k source_reads,
       IndexPanic b i (length (slice_of short_tph sample_hum b)))
    /\ nth_error source_reads k = Some (b, i)
    /\ (length (slice_of short_tph sample_hum b) <= i)%nat
    /\ reads_in_range short_tph sample_hum (firstn k source_reads)
    /\ (length short_tph = 22%nat -> (10 <= length sample_hum)%nat ->
        b = Tph /\ i = 22%nat /\ k = 20%nat).
Proof.
  apply (newCalibration68x_short_buffer_panics short_tph sample_hum).
  left. simpl. lia.
Defined.

(** ** Pressure compensation *)

Lemma trunc_zero_f2i (cvt_oor : Z -> f64 -> Z) (w : Z) (f : f64) :
  0 < w -> trunc f = Some 0 -> f2i cvt_oor w f = 0.
Proof.
  intros Hw Ht. unfold f2i. rewrite Ht.
  assert (0 < 2 ^ (w - 1)) by (apply Z.pow_pos_nonneg; lia).
  destruct (Z.leb_spec (- 2 ^ (w - 1)) 0); [ | lia].
  destruct (Z.ltb_spec 0 (2 ^ (w - 1))); [reflexivity | lia].
Qed.

(** Past the guard the denominator is not a zero. *)
Lemma guard_excludes_zero (cvt_oor : Z -> f64 -> Z) (f : f64) :
  f2i cvt_oor 32 f <> 0 -> forall s, f <> S754_zero s.
Proof.
  intros Hg s ->. apply Hg. apply trunc_zero_f2i; [lia | reflexivity].
Qed.

(** C4. Whenever the guard [int32(var1)] of [compensatePressureFloat] is
    zero, the function returns exactly [+0.0]; this holds in particular
    whenever the denominator [var1] truncates to the integer zero. The
    function is total: its result is a [float64] on every input and it has
    no failing path. *)
Theorem compensatePressureFloat_zero_guard
        (cvt_oor : Z -> f64 -> Z) (c : calibration68x) (raw tFine : Z) :
  f2i cvt_oor 32 (pressure_var1 c tFine) = 0 \/ trunc (pressure_var1 c tFine) = Some 0 ->
  compensatePressureFloat cvt_oor c raw tFine = S754_zero false.
Proof.
  intros H.
  assert (Hg : f2i cvt_oor 32 (pressure_var1 c tFine) = 0).
  { destruct H as [H | H]; [exact H | ]. apply trunc_zero_f2i; [lia | exact H]. }
  unfold compensatePressureFloat. cbv zeta. rewrite Hg. reflexivity.
Qed.

Lemma compensatePressureFloat_zero_guard_witness :
  compensatePressureFloat cvt_min zero_cal 400000 116000 = S754_zero false.
Proof.
  apply (compensatePressureFloat_zero_guard cvt_min zero_cal 400000 116000).
  right. vm_compute. reflexivity.
Defined.

(** A denominator just below one truncates to zero as well, and away from
    the guard the polynomial is evaluated. *)
Example compensatePressureFloat_fraction :
  pressure_var1 tiny_cal 116000 = S754_finite false 9007196109012992 (-53)
  /\ compensatePressureFloat cvt_min tiny_cal 400000 116000 = S754_zero false.
Proof. split; vm_compute; reflexivity. Qed.

Example compensatePressureFloat_sample :
  compensatePressureFloat cvt_min sample_cal 400000 116000
  = S754_finite false 6264882994961736 (-36).
Proof. vm_compute. reflexivity. Qed.

(** ** Idle check *)

(** The mask [60 = 0b00111100] selects bits 2 to 5. *)
Lemma mask60_clear (x : Z) :
  Z.land x 60 = 0 <-> (forall i, 2 <= i <= 5 -> Z.testbit x i = false).
Proof.
  split.
  - intros H i Hi.
    assert (Hb : Z.testbit (Z.land x 60) i = false) by (rewrite H; apply Z.bits_0).
    rewrite Z.land_spec in Hb.
    assert (Hm : Z.testbit 60 i = true).
    { assert (i = 2 \/ i = 3 \/ i = 4 \/ i = 5) as [-> | [-> | [-> | ->]]] by lia;
        reflexivity. }
    rewrite Hm, andb_true_r in Hb. exact Hb.
  - intros H. apply Z.bits_inj'. intros n Hn.
    rewrite Z.land_spec, Z.bits_0.
    destruct (Z.le_gt_cases 6 n) as [Hbig | Hsmall].
    + rewrite (Z.bits_above_log2 60 n) by (change (Z.log2 60) with 5; lia).
      apply andb_false_r.
    + destruct (Z.le_gt_cases 2 n) as [Hmid | Hlow].
      * rewrite H by lia. reflexivity.
      * assert (n = 0 \/ n = 1) as [-> | ->] by lia; apply andb_false_r.
Qed.

(** C6. When the one-byte read at the status address [0x1D] delivers the
    byte [s], [isIdle68x] answers [true] exactly when bits 2 to 5 of [s]
    are all clear, whatever the other bits are, and returns no error; the
    status bytes [0x00], [0b01100000] and [0b00000001] give [true],
    [false] and [true]. When the read fails, the error is returned
    (together with [false]). In both cases exactly that one read is
    issued. *)
Theorem isIdle68x_mask {error : Type} (bus : Z -> nat -> error + list byte)
        (log : reads) :
  (forall s rest, bus 29 1%nat = inr (s :: rest) ->
     exists idle,
       isIdle68x bus log = (log ++ [(29, 1%nat)], (idle, None))
       /\ (idle = true <-> forall i, 2 <= i <= 5 -> Z.testbit (b2z s) i = false))
  /\ (forall err, bus 29 1%nat = inl err ->
        isIdle68x bus log = (log ++ [(29, 1%nat)], (false, Some err)))
  /\ snd (isIdle68x (sample_bus x00) []) = (true, None)
  /\ snd (isIdle68x (sample_bus x60) []) = (false, None)
  /\ snd (isIdle68x (sample_bus x01) []) = (true, None).
Proof.
  split; [ | split; [ | repeat split; vm_compute; reflexivity] ].
  - intros s rest Hbus. unfold isIdle68x, readReg. cbn [length].
    rewrite Hbus. cbn. eexists. split; [reflexivity | ].
    rewrite Z.eqb_eq. apply mask60_clear.
  - intros err Hbus. unfold isIdle68x, readReg. cbn [length].
    rewrite Hbus. reflexivity.
Qed.

(** ** Measurement orchestrator *)

Lemma read_len_cases (d : Dev) : read_len d = 6%nat \/ read_len d = 8%nat.
Proof. unfold read_len. destruct (isBME d); [right | left]; reflexivity. Qed.

Lemma length_read_slice (d : Dev) :
  length (firstn (read_len d) (repeat x00 8)) = read_len d.
Proof. destruct (read_len_cases d) as [-> | ->]; reflexivity. Qed.

(** The reading after a cycle whose read delivered the buffer [buf]. *)
Lemma sense68x_success (cvt_oor : Z -> f64 -> Z) {error : Type}
      (bus : Z -> nat -> error + list byte) (phy : physic_units)
      (d : Dev) (e : Env) (log : reads) (data : list byte) :
  bus 31 (read_len d) = inr data ->
  let buf := buf_after (read_len d) data in
  let r := compensateTempInt (cal68x d) (tRaw_of buf) in
  sense68x cvt_oor bus phy d e log
  = (log ++ [(31, read_len d)],
     ({| Temperature := scale_temperature phy (fst r);
         Pressure :=
           if is_off (opts_Pressure (opts d)) then Pressure e
           else scale_pressure cvt_oor phy
                  (compensatePressureFloat cvt_oor (cal68x d) (pRaw_of buf) (snd r));
         Humidity :=
           if is_off (opts_Humidity (opts d)) then Humidity e
           else scale_humidity phy
                  (compensateHumidityInt (cal68x d) (hRaw_of buf) (snd r)) |},
      None)).
Proof.
  intros Hbus. cbv zeta. unfold sense68x, readReg.
  rewrite length_read_slice, Hbus. fold (buf_after (read_len d) data).
  destruct (compensateTempInt (cal68x d) (tRaw_of (buf_after (read_len d) data)))
    as [t tFine].
  cbn [fst snd].
  destruct (is_off (opts_Pressure (opts d))), (is_off (opts_Humidity (opts d)));
    reflexivity.
Qed.

Lemma sense68x_failure (cvt_oor : Z -> f64 -> Z) {error : Type}
      (bus : Z -> nat -> error + list byte) (phy : physic_units)
      (d : Dev) (e : Env) (log : reads) (err : error) :
  bus 31 (read_len d) = inl err ->
  sense68x cvt_oor bus phy d e log = (log ++ [(31, read_len d)], (e, Some err)).
Proof.
  intros Hbus. unfold sense68x, readReg.
  rewrite length_read_slice, Hbus. reflexivity.
Qed.

(** On a bus that refuses every read the cycle returns the error after
    its one read and leaves the reading untouched; the idle check returns
    the error as well. *)
Example sense68x_dead_bus :
  sense68x cvt_min dead_bus periph_units (sample_dev O1x O1x) empty_env []
  = ([(31, 8%nat)], (empty_env, Some Nack))
  /\ isIdle68x dead_bus [] = ([(29, 1%nat)], (false, Some Nack)).
Proof. split; reflexivity. Qed.

(** The claim that the read is 8 bytes long exactly when humidity is
    requested, refuted: on a BME device with the humidity channel off the
    cycle reads 8 bytes and leaves the humidity field as it was. *)
Lemma sense68x_reads_8_without_humidity :
  is_off (opts_Humidity (opts (sample_dev O1x Off))) = true
  /\ sense68x cvt_min (sample_bus x00) periph_units (sample_dev O1x Off) empty_env []
     = ([(31, 8%nat)],
        ({| Temperature := 295810000000; Pressure := 91166042968750; Humidity := 0 |},
         None))
  /\ ~ (forall (d : Dev) (e : Env),
         fst (sense68x cvt_min (sample_bus x00) periph_units d e [])
         = [(31, if is_off (opts_Humidity (opts d)) then 6%nat else 8%nat)]).
Proof.
  split; [reflexivity | ]. split; [vm_compute; reflexivity | ].
  intros Hall. specialize (Hall (sample_dev O1x Off) empty_env).
  vm_compute in Hall. discriminate Hall.
Qed.

(** C7, as the code has it. Every cycle issues exactly one register read,
    at address [0x1F]: of 8 bytes on a BME device (the variant with a
    humidity sensor), of 6 bytes otherwise, whatever channels are
    requested and whether or not the read succeeds. *)
Theorem sense68x_single_read (cvt_oor : Z -> f64 -> Z) {error : Type}
        (bus : Z -> nat -> error + list byte) (phy : physic_units)
        (d : Dev) (e : Env) (log : reads) :
  fst (sense68x cvt_oor bus phy d e log)
  = log ++ [(31, if isBME d then 8%nat else 6%nat)].
Proof.
  fold (read_len d).
  destruct (bus 31 (read_len d)) as [err | data] eqn:Hbus.
  - rewrite (sense68x_failure cvt_oor bus phy d e log err Hbus). reflexivity.
  - rewrite (sense68x_success cvt_oor bus phy d e log data Hbus). reflexivity.
Qed.

(** *** The buffer after the read *)

Lemma length_copy (dst src : list byte) : length (copy dst src) = length dst.
Proof.
  unfold copy. rewrite length_app, length_firstn, length_skipn. lia.
Qed.

Lemma nth_copy (dst src : list byte) (i : nat) (d : byte) :
  (i < length dst)%nat ->
  nth i (copy dst src) d = if (i <? length src)%nat then nth i src d else nth i dst d.
Proof.
  intros Hi. unfold copy.
  destruct (Nat.ltb_spec i (length src)) as [Hs | Hs].
  - rewrite app_nth1 by (rewrite length_firstn; lia).
    rewrite nth_firstn.
    destruct (Nat.ltb_spec i (length dst)); [reflexivity | lia].
  - rewrite app_nth2 by (rewrite length_firstn; lia).
    rewrite length_firstn, nth_skipn. f_equal. lia.
Qed.

(** Below the read length the buffer holds the delivered bytes (and
    zero where the delivery was short); from the read length on it holds
    the zeroes it was initialised with. *)
Lemma buf_after_at (n : nat) (data : list byte) (i : nat) :
  (n <= 8)%nat ->
  at_ (buf_after n data) i = if (i <? n)%nat then nth i data x00 else x00.
Proof.
  intros Hn. unfold at_, buf_after.
  assert (Hlen : length (firstn n (repeat x00 8)) = n)
    by (rewrite length_firstn, repeat_length; lia).
  destruct (Nat.ltb_spec i n) as [Hi | Hi].
  - rewrite app_nth1 by (rewrite length_copy; lia).
    rewrite nth_copy by lia.
    destruct (Nat.ltb_spec i (length data)) as [Hd | Hd]; [reflexivity | ].
    rewrite (nth_overflow data) by lia.
    rewrite nth_firstn. destruct (i <? n)%nat; [apply nth_repeat | reflexivity].
  - rewrite app_nth2 by (rewrite length_copy; lia).
    rewrite nth_skipn. apply nth_repeat.
Qed.

(** *** Raw codes *)

Lemma raw20_spec (b0 b1 b2 : byte) :
  raw20 b0 b1 b2 = b2z b0 * 2 ^ 12 + b2z b1 * 2 ^ 4 + b2z b2 / 2 ^ 4
  /\ 0 <= raw20 b0 b1 b2 < 2 ^ 20.
Proof.
  pose proof (b2z_range b0) as H0. pose proof (b2z_range b1) as H1.
  pose proof (b2z_range b2) as H2.
  assert (Hq : 0 <= b2z b2 / 2 ^ 4 < 2 ^ 4).
  { split; [apply Z.div_pos; lia | apply Z.div_lt_upper_bound; lia]. }
  assert (Heq : raw20 b0 b1 b2 = b2z b0 * 2 ^ 12 + b2z b1 * 2 ^ 4 + b2z b2 / 2 ^ 4).
  { unfold raw20, shl32, shr32.
    rewrite (int32_small (b2z b0)), (int32_small (b2z b1)),
      (int32_small (b2z b2)) by lia.
    rewrite !shiftl_mul by lia. rewrite Z.shiftr_div_pow2 by lia.
    rewrite (int32_small (b2z b0 * 2 ^ 12)), (int32_small (b2z b1 * 2 ^ 4)) by lia.
    rewrite (Z.lor_comm (b2z b0 * 2 ^ 12)).
    rewrite (lor_disjoint 12 (b2z b1 * 2 ^ 4) (b2z b0)) by lia.
    rewrite Z.lor_comm.
    replace (b2z b1 * 2 ^ 4 + b2z b0 * 2 ^ 12)
      with ((b2z b1 + b2z b0 * 256) * 2 ^ 4) by lia.
    rewrite lor_disjoint by lia. lia. }
  split; [exact Heq | ]. rewrite Heq. change (2 ^ 20) with 1048576. lia.
Qed.

Lemma hRaw_spec (buf : list byte) :
  hRaw_of buf = b2z (at_ buf 6) * 256 + b2z (at_ buf 7)
  /\ 0 <= hRaw_of buf < 2 ^ 16.
Proof.
  pose proof (b2z_range (at_ buf 6)) as H6. pose proof (b2z_range (at_ buf 7)) as H7.
  assert (Heq : hRaw_of buf = b2z (at_ buf 6) * 256 + b2z (at_ buf 7)).
  { unfold hRaw_of, shl32.
    rewrite (int32_small (b2z (at_ buf 6))), (int32_small (b2z (at_ buf 7))) by lia.
    rewrite shiftl_mul by lia.
    change (2 ^ 8) with 256. rewrite int32_small by lia.
    rewrite Z.lor_comm, lor_byte by lia. lia. }
  split; [exact Heq | ]. rewrite Heq. change (2 ^ 16) with 65536. lia.
Qed.

(** C8. After a successful read delivering [data], with [buf] the
    measurement buffer, the cycle works on
    [pRaw = (buf[0] << 12) | (buf[1] << 4) | (buf[2] >> 4)] and
    [tRaw] built the same way from bytes 3 to 5, both in
    [0, 2^20 - 1] and independent of the low nibble of their third byte,
    and, when humidity is requested, on [hRaw = (buf[6] << 8) | buf[7]] in
    [0, 2^16 - 1]; bytes below the read length are the delivered ones. The
    reading it produces is computed from exactly these three codes. *)
Theorem sense68x_raw_extraction (cvt_oor : Z -> f64 -> Z) {error : Type}
        (bus : Z -> nat -> error + list byte) (phy : physic_units)
        (d : Dev) (e : Env) (log : reads) (data : list byte) :
  bus 31 (read_len d) = inr data ->
  let buf := buf_after (read_len d) data in
  let B i := b2z (at_ buf i) in
  let r := compensateTempInt (cal68x d) (tRaw_of buf) in
  (pRaw_of buf = B 0%nat * 2 ^ 12 + B 1%nat * 2 ^ 4 + B 2%nat / 2 ^ 4
   /\ 0 <= pRaw_of buf <= 2 ^ 20 - 1)
  /\ (tRaw_of buf = B 3%nat * 2 ^ 12 + B 4%nat * 2 ^ 4 + B 5%nat / 2 ^ 4
      /\ 0 <= tRaw_of buf <= 2 ^ 20 - 1)
  /\ (hRaw_of buf = B 6%nat * 2 ^ 8 + B 7%nat /\ 0 <= hRaw_of buf <= 2 ^ 16 - 1)
  /\ (forall i, (i < read_len d)%nat -> at_ buf i = nth i data x00)
  /\ snd (sense68x cvt_oor bus phy d e log)
     = ({| Temperature := scale_temperature phy (fst r);
           Pressure :=
             if is_off (opts_Pressure (opts d)) then Pressure e
             else scale_pressure cvt_oor phy
                    (compensatePressureFloat cvt_oor (cal68x d) (pRaw_of buf) (snd r));
           Humidity :=
             if is_off (opts_Humidity (opts d)) then Humidity e
             else scale_humidity phy
                    (compensateHumidityInt (cal68x d) (hRaw_of buf) (snd r)) |},
        None).
Proof.
  intros Hbus buf B r.
  destruct (raw20_spec (at_ buf 0) (at_ buf 1) (at_ buf 2)) as [Hp Hpr].
  destruct (raw20_spec (at_ buf 3) (at_ buf 4) (at_ buf 5)) as [Ht Htr].
  destruct (hRaw_spec buf) as [Hh Hhr].
  repeat split; try (unfold pRaw_of, tRaw_of, B in *; lia).
  - intros i Hi. unfold buf. rewrite buf_after_at.
    + destruct (Nat.ltb_spec i (read_len d)); [reflexivity | lia].
    + destruct (read_len_cases d) as [-> | ->]; lia.
  - rewrite (sense68x_success cvt_oor bus phy d e log data Hbus). reflexivity.
Qed.

Lemma sense68x_raw_extraction_witness :
  pRaw_of sample_regs = 400000 /\ tRaw_of sample_regs = 490064
  /\ hRaw_of sample_regs = 20000
  /\ snd (sense68x cvt_min (sample_bus x00) periph_units (sample_dev O1x O1x)
            empty_env [])
     = ({| Temperature := 295810000000; Pressure := 91166042968750;
           Humidity := 3483780 |}, None).
Proof.
  pose proof (sense68x_raw_extraction cvt_min (sample_bus x00) periph_units
                (sample_dev O1x O1x) empty_env [] sample_regs eq_refl) as H.
  cbv zeta in H.
  destruct H as ([Hp _] & [Ht _] & [Hh _] & _ & Hs).
  split; [exact Hp | ]. split; [exact Ht | ]. split; [exact Hh | ]. exact Hs.
Defined.

(** *** Temperature output *)

Lemma wrapS_mod (w x : Z) : 0 < w -> wrapS w x mod 2 ^ w = x mod 2 ^ w.
Proof.
  intros Hw. unfold wrapS.
  assert (0 < 2 ^ w) by (apply Z.pow_pos_nonneg; lia).
  rewrite Zminus_mod_idemp_l. f_equal. lia.
Qed.

Lemma wrapS_congr (w x y : Z) : x mod 2 ^ w = y mod 2 ^ w -> wrapS w x = wrapS w y.
Proof.
  intros H. unfold wrapS. f_equal.
  rewrite <- (Zplus_mod_idemp_l x), <- (Zplus_mod_idemp_l y), H. reflexivity.
Qed.

Lemma wrapS_mul_l (w x y : Z) : 0 < w -> wrapS w (wrapS w x * y) = wrapS w (x * y).
Proof.
  intros Hw. apply wrapS_congr.
  rewrite <- Zmult_mod_idemp_l, wrapS_mod by exact Hw.
  apply Zmult_mod_idemp_l.
Qed.

(** The stored temperature is [t * 10 * MilliCelsius + ZeroCelsius] as an
    [int64]. *)
Lemma scale_temperature_spec (phy : physic_units) (t : Z) :
  scale_temperature phy t = int64 (t * 10 * MilliCelsius phy + ZeroCelsius phy).
Proof.
  unfold scale_temperature, int64.
  rewrite (wrapS_mul_l 64 t 10) by lia.
  rewrite (wrapS_mul_l 64 (t * 10)) by lia.
  apply wrapS_add_l. lia.
Qed.

Lemma nth_of_firstn_eq (l1 l2 : list byte) (n i : nat) :
  firstn n l1 = firstn n l2 -> (i < n)%nat -> nth i l1 x00 = nth i l2 x00.
Proof.
  intros Heq Hi.
  assert (H1 : nth i (firstn n l1) x00 = nth i l1 x00).
  { rewrite nth_firstn. destruct (Nat.ltb_spec i n); [reflexivity | lia]. }
  assert (H2 : nth i (firstn n l2) x00 = nth i l2 x00).
  { rewrite nth_firstn. destruct (Nat.ltb_spec i n); [reflexivity | lia]. }
  rewrite <- H1, <- H2, Heq. reflexivity.
Qed.

Lemma tRaw_of_buf_after (d : Dev) (data : list byte) :
  tRaw_of (buf_after (read_len d) data)
  = raw20 (nth 3 data x00) (nth 4 data x00) (nth 5 data x00).
Proof.
  unfold tRaw_of.
  rewrite !buf_after_at by (destruct (read_len_cases d) as [-> | ->]; lia).
  destruct (read_len_cases d) as [-> | ->]; reflexivity.
Qed.

(** C9. Two cycles on devices that share their calibration coefficients,
    whose reads deliver the same first six register bytes, store the same
    temperature, whatever pressure and humidity options each device has
    and whatever the readings held before. That temperature comes from the
    one call of [compensateTempInt] on the raw code of bytes 3 to 5, which
    runs before the optional channels, and is
    [centiCelsius * 10 * MilliCelsius + ZeroCelsius] as an [int64]. *)
Theorem sense68x_temperature_independent
        (cvt1 cvt2 : Z -> f64 -> Z) {error : Type}
        (bus1 bus2 : Z -> nat -> error + list byte) (phy : physic_units)
        (d1 d2 : Dev) (e1 e2 : Env) (log1 log2 : reads) (data1 data2 : list byte) :
  cal68x d1 = cal68x d2 ->
  bus1 31 (read_len d1) = inr data1 ->
  bus2 31 (read_len d2) = inr data2 ->
  firstn 6 data1 = firstn 6 data2 ->
  let out1 := Temperature (fst (snd (sense68x cvt1 bus1 phy d1 e1 log1))) in
  let out2 := Temperature (fst (snd (sense68x cvt2 bus2 phy d2 e2 log2))) in
  let tRaw := raw20 (nth 3 data1 x00) (nth 4 data1 x00) (nth 5 data1 x00) in
  let centiCelsius := fst (compensateTempInt (cal68x d1) tRaw) in
  out1 = out2
  /\ out1 = int64 (centiCelsius * 10 * MilliCelsius phy + ZeroCelsius phy).
Proof.
  intros Hcal Hb1 Hb2 Hdata. cbv zeta.
  rewrite (sense68x_success cvt1 bus1 phy d1 e1 log1 data1 Hb1).
  rewrite (sense68x_success cvt2 bus2 phy d2 e2 log2 data2 Hb2).
  cbn [fst snd Temperature].
  rewrite !tRaw_of_buf_after, !scale_temperature_spec, <- Hcal.
  rewrite <- (nth_of_firstn_eq data1 data2 6 3 Hdata) by lia.
  rewrite <- (nth_of_firstn_eq data1 data2 6 4 Hdata) by lia.
  rewrite <- (nth_of_firstn_eq data1 data2 6 5 Hdata) by lia.
  split; reflexivity.
Qed.

Lemma sense68x_temperature_independent_witness :
  Temperature
    (fst (snd (sense68x cvt_min (sample_bus x00) periph_units
                 (sample_dev Off Off) empty_env [])))
  = Temperature
      (fst (snd (sense68x cvt_min (sample_bus x00) periph_units
                   (sample_dev O1x O16x) empty_env []))).
Proof.
  refine (proj1 (sense68x_temperature_independent cvt_min cvt_min
                   (sample_bus x00) (sample_bus x00) periph_units
                   (sample_dev Off Off) (sample_dev O1x O16x)
                   empty_env empty_env [] [] sample_regs sample_regs _ _ _ _));
    reflexivity.
Defined.

(** With the scale constants of the [physic] package and a raw code and
    coefficients in range, the stored temperature does not wrap. *)
Lemma scale_temperature_periph (c : calibration68x) (raw : Z) :
  inU 16 (t1 c) -> inS 16 (t2 c) -> inS 8 (t3 c) -> 0 <= raw < 2 ^ 20 ->
  scale_temperature periph_units (fst (compensateTempInt c raw))
  = fst (compensateTempInt c raw) * 10000000 + 273150000000.
Proof.
  intros H1 H2 H3 Hraw.
  destruct (compensateTempInt_exact c raw H1 H2 H3 Hraw) as [Heq Hb].
  cbv zeta in Heq, Hb. rewrite Heq. cbn [fst].
  set (tFine := Z.shiftr _ 11 + Z.shiftr _ 14) in *.
  assert (Hce : - 84480 <= Z.shiftr (tFine * 5 + 128) 8 < 84481)
    by (apply shiftr_bounds; lia).
  rewrite scale_temperature_spec. cbn [MilliCelsius ZeroCelsius periph_units].
  rewrite int64_small; lia.
Qed.

(** * Further properties *)

(** ** Calibration parsing: when it returns and what it depends on *)

Lemma newCalibration68x_long (tph h : list byte) :
  (23 <= length tph)%nat -> (10 <= length h)%nat ->
  snd (run (newCalibration68x tph h)) = Returned (documented_coefficients tph h).
Proof.
  intros Ht Hh. unfold run, newCalibration68x.
  rewrite !bind_index_ok by lia. cbv zeta. unfold ret. cbn [snd].
  f_equal. unfold documented_coefficients, byte_at.
  rewrite !le_u16_spec, !le_i16_spec, !nibble_hi_spec.
  pose proof (b2z_range (nth 1 h x00)) as H1.
  rewrite (uint16_small (b2z (nth 1 h x00))) by lia.
  reflexivity.
Qed.

Ltac panic_exists :=
  unfold run, newCalibration68x; first_bad_index; cbn [snd];
  do 3 eexists; reflexivity.

Lemma newCalibration68x_short (tph h : list byte) :
  (length tph < 23 \/ length h < 10)%nat ->
  exists b i n, snd (run (newCalibration68x tph h)) = IndexPanic b i n.
Proof.
  intros Hshort.
  destruct (Nat.lt_ge_cases (length h) 10) as [Hh | Hh].
  - clear Hshort. destruct_list h 10%nat panic_exists.
    cbn [length] in Hh. lia.
  - assert (Ht : (length tph < 23)%nat) by lia. clear Hshort.
    destruct_list tph 23%nat panic_exists.
    cbn [length] in Ht. lia.
Qed.

(** X1. [newCalibration68x] returns a coefficient set exactly when the tph
    block has at least 23 bytes and the humidity block at least 10; in
    every other case it panics. *)
Theorem newCalibration68x_returns_iff (tph h : list byte) :
  (exists c, snd (run (newCalibration68x tph h)) = Returned c)
  <-> (23 <= length tph /\ 10 <= length h)%nat.
Proof.
  split.
  - intros [c Hc].
    destruct (Nat.lt_ge_cases (length tph) 23) as [Ht | Ht];
      [ | destruct (Nat.lt_ge_cases (length h) 10) as [Hh | Hh]; [ | lia] ].
    + destruct (newCalibration68x_short tph h (or_introl Ht)) as (b & i & n & Hp).
      rewrite Hp in Hc. discriminate Hc.
    + destruct (newCalibration68x_short tph h (or_intror Hh)) as (b & i & n & Hp).
      rewrite Hp in Hc. discriminate Hc.
  - intros [Ht Hh]. exists (documented_coefficients tph h).
    apply newCalibration68x_long; assumption.
Qed.

(** X2. Whatever bytes the buffers hold, a coefficient set that
    [newCalibration68x] returns has every field in the range of its Go
    type, and [h1] and [h2] use at most 12 bits. *)
Theorem newCalibration68x_in_range (tph h : list byte) (c : calibration68x) :
  snd (run (newCalibration68x tph h)) = Returned c ->
  cal_in_range c /\ h1 c < 2 ^ 12 /\ h2 c < 2 ^ 12.
Proof.
  intros Hc.
  destruct (Nat.lt_ge_cases (length tph) 23) as [Ht | Ht];
    [ | destruct (Nat.lt_ge_cases (length h) 10) as [Hh | Hh] ].
  - destruct (newCalibration68x_short tph h (or_introl Ht)) as (b & i & n & Hp).
    rewrite Hp in Hc. discriminate Hc.
  - destruct (newCalibration68x_short tph h (or_intror Hh)) as (b & i & n & Hp).
    rewrite Hp in Hc. discriminate Hc.
  - rewrite (newCalibration68x_long tph h Ht Hh) in Hc.
    injection Hc as <-. apply documented_coefficients_in_range.
Qed.

Lemma newCalibration68x_in_range_witness :
  cal_in_range sample_cal /\ h1 sample_cal < 2 ^ 12 /\ h2 sample_cal < 2 ^ 12.
Proof.
  apply (newCalibration68x_in_range sample_tph sample_hum sample_cal).
  vm_compute. reflexivity.
Defined.

(** X3. When the humidity block has fewer than 10 bytes the parse panics
    on that block, at index 8 or 9, before any byte of the tph block is
    read, whatever the tph block is. *)
Theorem newCalibration68x_humidity_first (tph h : list byte) :
  (length h < 10)%nat ->
  exists log i,
    run (newCalibration68x tph h) = (log, IndexPanic Hum i (length h))
    /\ (i = 8 \/ i = 9)%nat
    /\ Forall (fun a => fst a = Hum) log.
Proof.
  intros Hh.
  destruct_list h 10%nat
    ltac:(unfold run, newCalibration68x; first_bad_index;
          do 2 eexists; split; [reflexivity | ];
          split; [lia | cbn [app]; repeat constructor]).
  cbn [length] in Hh. lia.
Qed.

Lemma newCalibration68x_humidity_first_witness :
  exists log i,
    run (newCalibration68x [] (firstn 9 sample_hum))
    = (log, IndexPanic Hum i (length (firstn 9 sample_hum)))
    /\ (i = 8 \/ i = 9)%nat
    /\ Forall (fun a => fst a = Hum) log.
Proof.
  apply (newCalibration68x_humidity_first [] (firstn 9 sample_hum)).
  simpl. lia.
Defined.

Lemma b2z_inj (a b : byte) : b2z a = b2z b -> a = b.
Proof.
  unfold b2z. intros H. apply N2Z.inj in H.
  assert (Hs : Some a = Some b)
    by (rewrite <- (Byte.of_to_N a), <- (Byte.of_to_N b), H; reflexivity).
  injection Hs as ->. reflexivity.
Qed.

Lemma wrapS_inj (w x y : Z) :
  0 < w -> inU w x -> inU w y -> wrapS w x = wrapS w y -> x = y.
Proof.
  unfold inU. intros Hw Hx Hy H.
  assert (Hm : wrapS w x mod 2 ^ w = wrapS w y mod 2 ^ w) by (rewrite H; reflexivity).
  rewrite !wrapS_mod in Hm by exact Hw.
  rewrite !Z.mod_small in Hm by assumption. exact Hm.
Qed.

Lemma le16_inj (a b a' b' : byte) :
  le16 (b2z a) (b2z b) = le16 (b2z a') (b2z b') -> a = a' /\ b = b'.
Proof.
  pose proof (b2z_range a). pose proof (b2z_range b).
  pose proof (b2z_range a'). pose proof (b2z_range b').
  rewrite !le16_sum by assumption. intros HE.
  split; apply b2z_inj; lia.
Qed.

Lemma le16_signed_inj (a b a' b' : byte) :
  wrapS 16 (le16 (b2z a) (b2z b)) = wrapS 16 (le16 (b2z a') (b2z b')) ->
  a = a' /\ b = b'.
Proof.
  pose proof (b2z_range a). pose proof (b2z_range b).
  pose proof (b2z_range a'). pose proof (b2z_range b').
  intros HE. apply le16_inj. apply (wrapS_inj 16); try exact HE; try lia;
    rewrite le16_sum by assumption; unfold inU; lia.
Qed.

Lemma byte_signed_inj (a a' : byte) : wrapS 8 (b2z a) = wrapS 8 (b2z a') -> a = a'.
Proof.
  pose proof (b2z_range a). pose proof (b2z_range a').
  intros HE. apply b2z_inj.
  apply (wrapS_inj 8); try exact HE; try lia; unfold inU; lia.
Qed.

(** The three bytes behind [h1] and [h2] are recovered from the pair. *)
Lemma nibbles_inj (g0 g1 g2 g0' g1' g2' : byte) :
  Z.lor (Z.land (b2z g1) 15) (Z.shiftl (b2z g2) 4)
  = Z.lor (Z.land (b2z g1') 15) (Z.shiftl (b2z g2') 4) ->
  Z.lor (Z.shiftr (b2z g1) 4) (Z.shiftl (b2z g0) 4)
  = Z.lor (Z.shiftr (b2z g1') 4) (Z.shiftl (b2z g0') 4) ->
  g0 = g0' /\ g1 = g1' /\ g2 = g2'.
Proof.
  pose proof (b2z_range g0). pose proof (b2z_range g1). pose proof (b2z_range g2).
  pose proof (b2z_range g0'). pose proof (b2z_range g1'). pose proof (b2z_range g2').
  change 15 with (Z.ones 4). rewrite !Z.land_ones by lia.
  rewrite !shiftl_mul by lia. rewrite !Z.shiftr_div_pow2 by lia.
  pose proof (Z.mod_pos_bound (b2z g1) (2 ^ 4)) as Hm.
  pose proof (Z.mod_pos_bound (b2z g1') (2 ^ 4)) as Hm'.
  assert (Hq : 0 <= b2z g1 / 2 ^ 4 < 2 ^ 4)
    by (split; [apply Z.div_pos; lia | apply Z.div_lt_upper_bound; lia]).
  assert (Hq' : 0 <= b2z g1' / 2 ^ 4 < 2 ^ 4)
    by (split; [apply Z.div_pos; lia | apply Z.div_lt_upper_bound; lia]).
  rewrite !lor_disjoint by lia. intros E1 E2.
  pose proof (Z.div_mod (b2z g1) (2 ^ 4)) as D.
  pose proof (Z.div_mod (b2z g1') (2 ^ 4)) as D'.
  repeat split; apply b2z_inj; lia.
Qed.

Ltac forall_heads :=
  repeat match goal with
         | H : Forall _ (_ :: _) |- _ =>
             apply Forall_cons_iff in H; destruct H as [? H]
         | H : Forall _ [] |- _ => clear H
         end.

Lemma documented_coefficients_eq_iff (tph h tph' h' : list byte) :
  documented_coefficients tph h = documented_coefficients tph' h'
  <-> agree_on used_tph tph tph' /\ agree_on used_hum h h'.
Proof.
  unfold agree_on, used_tph, used_hum. split.
  - unfold documented_coefficients, byte_at. intros H.
    injection H as E1 E2 E3 E4 E5 E6 E7 E8 E9 E10 E11 E12 E13 E14 E15 E16 E17
                     E18 E19 E20.
    apply le16_inj in E1 as [? ?]. apply le16_signed_inj in E2 as [? ?].
    apply byte_signed_inj in E3. apply le16_inj in E4 as [? ?].
    apply le16_signed_inj in E5 as [? ?]. apply le16_signed_inj in E6 as [? ?].
    apply le16_signed_inj in E7 as [? ?]. apply le16_signed_inj in E8 as [? ?].
    apply le16_signed_inj in E9 as [? ?].
    apply byte_signed_inj in E10. apply byte_signed_inj in E11.
    apply byte_signed_inj in E12. apply b2z_inj in E13.
    destruct (nibbles_inj _ _ _ _ _ _ E14 E15) as (? & ? & ?).
    apply byte_signed_inj in E16. apply byte_signed_inj in E17.
    apply byte_signed_inj in E18. apply byte_signed_inj in E19.
    apply b2z_inj in E20.
    split; repeat (apply Forall_cons; [assumption | ]); apply Forall_nil.
  - intros [Ht Hh]. forall_heads. cbv beta in *.
    unfold documented_coefficients, byte_at.
    repeat match goal with
           | E : nth ?i ?s x00 = nth ?i ?s' x00 |- _ => rewrite E; clear E
           end.
    reflexivity.
Qed.

Lemma Returned_inj {A} (a a' : A) : @Returned A a = Returned a' -> a = a'.
Proof. intros H. injection H as H. exact H. Qed.

(** X4. For buffers long enough to parse, two pairs of blocks give the
    same coefficient set exactly when they hold the same bytes at the 19
    tph offsets and the 10 humidity offsets that the parser indexes: every
    indexed byte is recoverable from the coefficients, and tph offsets 3,
    9, 16, 17 and everything from offset 23 (humidity: from 10) on never
    matter. *)
Theorem newCalibration68x_same_iff_used_bytes (tph h tph' h' : list byte) :
  (23 <= length tph)%nat -> (10 <= length h)%nat ->
  (23 <= length tph')%nat -> (10 <= length h')%nat ->
  snd (run (newCalibration68x tph h)) = snd (run (newCalibration68x tph' h'))
  <-> agree_on used_tph tph tph' /\ agree_on used_hum h h'.
Proof.
  intros Ht Hh Ht' Hh'.
  rewrite (newCalibration68x_long tph h Ht Hh).
  rewrite (newCalibration68x_long tph' h' Ht' Hh').
  rewrite <- documented_coefficients_eq_iff.
  split; [apply Returned_inj | intros ->; reflexivity].
Qed.

Lemma newCalibration68x_same_iff_used_bytes_witness :
  snd (run (newCalibration68x sample_tph sample_hum))
  = snd (run (newCalibration68x padded_tph padded_hum)).
Proof.
  apply (newCalibration68x_same_iff_used_bytes sample_tph sample_hum
           padded_tph padded_hum); try (simpl; lia).
  split; unfold agree_on; repeat constructor.
Defined.

(** ** Temperature compensation on the whole input type *)

(** X5. For every [int32] raw code, not only the 20-bit ones, and
    coefficients in the ranges of their types, no [int64] operation of
    [compensateTempInt] wraps: the two results are the documented integer
    formula, and only the final conversions to [int32] can lose bits. *)
Theorem compensateTempInt_int64_never_wraps (c : calibration68x) (raw : Z) :
  inU 16 (t1 c) -> inS 16 (t2 c) -> inS 8 (t3 c) -> inS 32 raw ->
  let v1 := Z.shiftr raw 3 - Z.shiftl (t1 c) 1 in
  let v2 := Z.shiftr (v1 * t2 c) 11 in
  let v3 :=
    Z.shiftr (Z.shiftr (Z.shiftr v1 1 * Z.shiftr v1 1) 12 * Z.shiftl (t3 c) 4) 14 in
  let tFine := v2 + v3 in
  compensateTempInt c raw = (int32 (Z.shiftr (tFine * 5 + 128) 8), int32 tFine).
Proof.
  unfold inU, inS. intros H1 H2 H3 Hraw.
  change (2 ^ 16) with 65536 in H1. change (2 ^ (16 - 1)) with 32768 in H2.
  change (2 ^ (8 - 1)) with 128 in H3. change (2 ^ (32 - 1)) with 2147483648 in Hraw.
  assert (Ha : - 268435456 <= Z.shiftr raw 3 < 268435456)
    by (apply shiftr_bounds; lia).
  assert (Hb : Z.shiftl (t1 c) 1 = t1 c * 2) by (apply shiftl_mul; lia).
  assert (Hc : Z.shiftl (t3 c) 4 = t3 c * 16) by (apply shiftl_mul; lia).
  cbv zeta. unfold compensateTempInt, centiCelsius_of.
  rewrite (int64_small raw) by lia.
  rewrite (int64_small (t1 c)) by lia.
  rewrite (int64_small (t2 c)) by lia.
  rewrite (int64_small (t3 c)) by lia.
  rewrite (int64_small (Z.shiftl (t1 c) 1)) by lia.
  rewrite (int64_small (Z.shiftl (t3 c) 4)) by lia.
  set (v1 := Z.shiftr raw 3 - Z.shiftl (t1 c) 1).
  assert (Hv1 : - 268566526 <= v1 <= 268435455) by (unfold v1; lia).
  rewrite (int64_small v1) by lia.
  assert (Hp : - 8800387923968 <= v1 * t2 c <= 8800387923968) by nia.
  rewrite (int64_small (v1 * t2 c)) by lia.
  set (v2 := Z.shiftr (v1 * t2 c) 11).
  assert (Hv2 : - 4297064416 <= v2 < 4297064417)
    by (unfold v2; apply shiftr_bounds; lia).
  set (hv := Z.shiftr v1 1).
  assert (Hhv : - 134283263 <= hv < 134217728) by (unfold hv; apply shiftr_bounds; lia).
  assert (Hsq : 0 <= hv * hv <= 18031994721927169) by nia.
  rewrite (int64_small (hv * hv)) by lia.
  set (sq := Z.shiftr (hv * hv) 12).
  assert (Hs : 0 <= sq < 4402342461409) by (unfold sq; apply shiftr_bounds; lia).
  rewrite Hc.
  assert (Hq : - 9015997360965632 <= sq * (t3 c * 16) <= 9015997360965632) by nia.
  rewrite (int64_small (sq * (t3 c * 16))) by lia.
  set (v3 := Z.shiftr (sq * (t3 c * 16)) 14).
  assert (Hv3 : - 550292807677 <= v3 < 550292807677)
    by (unfold v3; apply shiftr_bounds; lia).
  rewrite (int64_small (v2 + v3)) by lia.
  rewrite (int64_small ((v2 + v3) * 5)) by lia.
  rewrite (int64_small ((v2 + v3) * 5 + 128)) by lia.
  reflexivity.
Qed.

Lemma compensateTempInt_int64_never_wraps_witness :
  compensateTempInt sample_cal (- 2147483648) = (184235878, 842942374).
Proof.
  refine (compensateTempInt_int64_never_wraps sample_cal (- 2147483648) _ _ _ _);
    unfold inU, inS; simpl; lia.
Defined.

(** ** Raw codes *)

(** X6. The 20-bit code keeps its first two bytes and the high nibble of
    the third, and nothing else: two byte triples give the same code
    exactly when they agree on those. *)
Theorem raw20_same_iff (b0 b1 b2 c0 c1 c2 : byte) :
  raw20 b0 b1 b2 = raw20 c0 c1 c2
  <-> b0 = c0 /\ b1 = c1 /\ Z.shiftr (b2z b2) 4 = Z.shiftr (b2z c2) 4.
Proof.
  destruct (raw20_spec b0 b1 b2) as [-> _].
  destruct (raw20_spec c0 c1 c2) as [-> _].
  rewrite !Z.shiftr_div_pow2 by lia.
  pose proof (b2z_range b0). pose proof (b2z_range b1). pose proof (b2z_range b2).
  pose proof (b2z_range c0). pose proof (b2z_range c1). pose proof (b2z_range c2).
  assert (Hq : 0 <= b2z b2 / 2 ^ 4 < 2 ^ 4)
    by (split; [apply Z.div_pos; lia | apply Z.div_lt_upper_bound; lia]).
  assert (Hq' : 0 <= b2z c2 / 2 ^ 4 < 2 ^ 4)
    by (split; [apply Z.div_pos; lia | apply Z.div_lt_upper_bound; lia]).
  split.
  - intros HE. repeat split; [apply b2z_inj; lia | apply b2z_inj; lia | lia].
  - intros (-> & -> & ->). reflexivity.
Qed.

(** ** The measurement cycle *)

(** X7. When the register read fails, [sense68x] returns the error of the
    read itself and writes no field of the reading. *)
Theorem sense68x_error_leaves_reading (cvt_oor : Z -> f64 -> Z) {error : Type}
        (bus : Z -> nat -> error + list byte) (phy : physic_units)
        (d : Dev) (e : Env) (log : reads) (err : error) :
  bus 31 (read_len d) = inl err ->
  snd (sense68x cvt_oor bus phy d e log) = (e, Some err).
Proof.
  intros Hbus. rewrite (sense68x_failure cvt_oor bus phy d e log err Hbus).
  reflexivity.
Qed.

Lemma sense68x_error_leaves_reading_witness :
  snd (sense68x cvt_min dead_bus periph_units (sample_dev O1x O1x) empty_env [])
  = (empty_env, Some Nack).
Proof.
  apply (sense68x_error_leaves_reading cvt_min dead_bus periph_units
           (sample_dev O1x O1x) empty_env [] Nack).
  reflexivity.
Defined.

(** X8. After a successful cycle the field of a channel that is [Off]
    holds the value it had before the call: it is neither cleared nor
    recomputed. No error is returned. *)
Theorem sense68x_off_channel_kept (cvt_oor : Z -> f64 -> Z) {error : Type}
        (bus : Z -> nat -> error + list byte) (phy : physic_units)
        (d : Dev) (e : Env) (log : reads) (data : list byte) :
  bus 31 (read_len d) = inr data ->
  let out := snd (sense68x cvt_oor bus phy d e log) in
  snd out = None
  /\ (opts_Pressure (opts d) = Off -> Pressure (fst out) = Pressure e)
  /\ (opts_Humidity (opts d) = Off -> Humidity (fst out) = Humidity e).
Proof.
  intros Hbus. cbv zeta.
  rewrite (sense68x_success cvt_oor bus phy d e log data Hbus).
  cbn [fst snd Pressure Humidity].
  split; [reflexivity | ]. split; intros ->; reflexivity.
Qed.

Lemma sense68x_off_channel_kept_witness :
  let out :=
    snd (sense68x cvt_min (sample_bus x00) periph_units (sample_dev Off Off)
           used_env []) in
  snd out = None /\ Pressure (fst out) = 2 /\ Humidity (fst out) = 3.
Proof.
  destruct (sense68x_off_channel_kept cvt_min (sample_bus x00) periph_units
              (sample_dev Off Off) used_env [] sample_regs eq_refl)
    as (Hn & Hp & Hh).
  split; [exact Hn | ]. split; [exact (Hp eq_refl) | exact (Hh eq_refl)].
Defined.

(** X9. On a device that is not a BME only six bytes are read, so when
    humidity is nevertheless requested the humidity code is 0 whatever the
    bus delivers, and the stored humidity is the compensation of that 0. *)
Theorem sense68x_humidity_without_sensor (cvt_oor : Z -> f64 -> Z) {error : Type}
        (bus : Z -> nat -> error + list byte) (phy : physic_units)
        (d : Dev) (e : Env) (log : reads) (data : list byte) :
  isBME d = false ->
  opts_Humidity (opts d) <> Off ->
  bus 31 6%nat = inr data ->
  let tRaw := raw20 (nth 3 data x00) (nth 4 data x00) (nth 5 data x00) in
  let tFine := snd (compensateTempInt (cal68x d) tRaw) in
  Humidity (fst (snd (sense68x cvt_oor bus phy d e log)))
  = scale_humidity phy (compensateHumidityInt (cal68x d) 0 tFine).
Proof.
  intros Hbme Hhum Hbus. cbv zeta.
  assert (Hlen : read_len d = 6%nat) by (unfold read_len; rewrite Hbme; reflexivity).
  rewrite <- Hlen in Hbus.
  rewrite (sense68x_success cvt_oor bus phy d e log data Hbus).
  cbn [fst snd Humidity].
  assert (Hoff : is_off (opts_Humidity (opts d)) = false)
    by (destruct (opts_Humidity (opts d)); [contradiction | reflexivity ..]).
  rewrite Hoff, tRaw_of_buf_after.
  destruct (hRaw_spec (buf_after (read_len d) data)) as [-> _].
  rewrite !buf_after_at by lia. rewrite Hlen. reflexivity.
Qed.

Lemma sense68x_humidity_without_sensor_witness :
  Humidity
    (fst (snd (sense68x cvt_min (sample_bus x00) periph_units bmp_dev empty_env [])))
  = scale_humidity periph_units (compensateHumidityInt sample_cal 0 116000).
Proof.
  refine (sense68x_humidity_without_sensor cvt_min (sample_bus x00) periph_units
            bmp_dev empty_env [] (firstn 6 sample_regs) eq_refl _ eq_refl).
  discriminate.
Defined.



(** X11. In a cycle with [t1], [t2], [t3] in range, and scale constants of
    magnitude at most [2^40] (unit) and [2^62] (offset), the stored
    temperature is [centiCelsius * 10 * MilliCelsius + ZeroCelsius] over
    the integers, with [centiCelsius] between -43521 and 43520: nothing
    wraps on the way from the register bytes to the reading. *)
Theorem sense68x_temperature_never_wraps
        (cvt_oor : Z -> f64 -> Z) {error : Type}
        (bus : Z -> nat -> error + list byte) (phy : physic_units)
        (d : Dev) (e : Env) (log : reads) (data : list byte) :
  inU 16 (t1 (cal68x d)) -> inS 16 (t2 (cal68x d)) -> inS 8 (t3 (cal68x d)) ->
  - 2 ^ 40 <= MilliCelsius phy <= 2 ^ 40 ->
  - 2 ^ 62 <= ZeroCelsius phy <= 2 ^ 62 ->
  bus 31 (read_len d) = inr data ->
  let tRaw := raw20 (nth 3 data x00) (nth 4 data x00) (nth 5 data x00) in
  let centiCelsius := fst (compensateTempInt (cal68x d) tRaw) in
  Temperature (fst (snd (sense68x cvt_oor bus phy d e log)))
  = centiCelsius * 10 * MilliCelsius phy + ZeroCelsius phy
  /\ - 43521 <= centiCelsius <= 43520.
Proof.
  intros H1 H2 H3 Hm Hz Hbus. cbv zeta.
  rewrite (sense68x_success cvt_oor bus phy d e log data Hbus).
  cbn [fst snd Temperature]. rewrite tRaw_of_buf_after.
  set (tRaw := raw20 _ _ _).
  assert (Hraw : 0 <= tRaw < 2 ^ 20) by apply raw20_spec.
  destruct (compensateTempInt_exact (cal68x d) tRaw H1 H2 H3 Hraw) as [Heq Hb].
  cbv zeta in Heq, Hb. rewrite Heq. cbn [fst].
  set (tFine := Z.shiftr _ 11 + Z.shiftr _ 14) in *.
  assert (Hce : - 43521 <= Z.shiftr (tFine * 5 + 128) 8 < 43521)
    by (apply shiftr_bounds; lia).
  set (centi := Z.shiftr (tFine * 5 + 128) 8) in *.
  rewrite scale_temperature_spec.
  change (2 ^ 40) with 1099511627776 in Hm.
  change (2 ^ 62) with 4611686018427387904 in Hz.
  split; [ | lia]. apply int64_small. nia.
Qed.

Lemma sense68x_temperature_never_wraps_witness :
  Temperature
    (fst (snd (sense68x cvt_min (sample_bus x00) periph_units
                 (sample_dev O1x O1x) empty_env [])))
  = 2266 * 10 * 1000000 + 273150000000.
Proof.
  refine (proj1 (sense68x_temperature_never_wraps cvt_min (sample_bus x00)
                   periph_units (sample_dev O1x O1x) empty_env [] sample_regs
                   _ _ _ _ _ eq_refl));
    unfold inU, inS; simpl; lia.
Defined.

(** ** Humidity and pressure as stored *)

Lemma compensateHumidityInt_range (c : calibration68x) (raw tFine : Z) :
  0 <= compensateHumidityInt c raw tFine <= 100000.
Proof.
  unfold compensateHumidityInt. cbv zeta.
  set (v := calcHum_raw c raw tFine).
  destruct (Z.ltb_spec 100000 v); [rewrite uint32_small; lia | ].
  destruct (Z.ltb_spec v 0); rewrite uint32_small; lia.
Qed.

(** X12. The rescaling of a compensated humidity [hum] never wraps when
    the unit constant lies between 0 and 2199: the stored value is
    [(hum * 10000 / 1024) * MicroRH] over the integers, and since [hum] is
    capped at 100000 it is at most [976562 * MicroRH]. *)
Theorem scale_humidity_never_wraps (phy : physic_units) (c : calibration68x)
        (raw tFine : Z) :
  0 <= MicroRH phy <= 2199 ->
  let hum := compensateHumidityInt c raw tFine in
  scale_humidity phy hum = hum * 10000 / 1024 * MicroRH phy
  /\ 0 <= scale_humidity phy hum <= 976562 * MicroRH phy.
Proof.
  intros Hu. cbv zeta.
  pose proof (compensateHumidityInt_range c raw tFine) as Hr.
  set (hum := compensateHumidityInt c raw tFine) in *.
  assert (Hq : 0 <= hum * 10000 / 1024 <= 976562).
  { split; [apply Z.div_pos; lia | ].
    apply Z.lt_succ_r. apply Z.div_lt_upper_bound; lia. }
  assert (Heq : scale_humidity phy hum = hum * 10000 / 1024 * MicroRH phy).
  { unfold scale_humidity, mul32, div32. cbv zeta.
    rewrite (int32_small hum) by lia.
    rewrite (int32_small (hum * 10000)) by lia.
    rewrite Z.quot_div_nonneg by lia.
    rewrite (int32_small (hum * 10000 / 1024)) by lia.
    apply int32_small. nia. }
  split; [exact Heq | ]. rewrite Heq. nia.
Qed.

Lemma scale_humidity_never_wraps_witness :
  scale_humidity periph_units (compensateHumidityInt sample_cal 20000 116000)
  = 35674 * 10000 / 1024 * 10.
Proof.
  refine (proj1 (scale_humidity_never_wraps periph_units sample_cal 20000 116000 _)).
  simpl. lia.
Defined.

(** X13. When pressure is requested and the guard of
    [compensatePressureFloat] is zero, the cycle stores a pressure of
    exactly 0, for every scale constant and every conversion behaviour. *)
Theorem sense68x_zero_guard_stores_zero
        (cvt_oor : Z -> f64 -> Z) {error : Type}
        (bus : Z -> nat -> error + list byte) (phy : physic_units)
        (d : Dev) (e : Env) (log : reads) (data : list byte) :
  opts_Pressure (opts d) <> Off ->
  bus 31 (read_len d) = inr data ->
  let buf := buf_after (read_len d) data in
  let tFine := snd (compensateTempInt (cal68x d) (tRaw_of buf)) in
  f2i cvt_oor 32 (pressure_var1 (cal68x d) tFine) = 0 ->
  Pressure (fst (snd (sense68x cvt_oor bus phy d e log))) = 0.
Proof.
  intros Hp Hbus buf tFine Hg.
  rewrite (sense68x_success cvt_oor bus phy d e log data Hbus).
  cbn [fst snd Pressure].
  assert (Hoff : is_off (opts_Pressure (opts d)) = false)
    by (destruct (opts_Pressure (opts d)); [contradiction | reflexivity ..]).
  rewrite Hoff. fold buf. fold tFine.
  unfold compensatePressureFloat. cbv zeta. rewrite Hg.
  cbn [Z.eqb negb]. reflexivity.
Qed.

Lemma sense68x_zero_guard_stores_zero_witness :
  Pressure
    (fst (snd (sense68x cvt_min (sample_bus x00) periph_units zero_dev used_env [])))
  = 0.
Proof.
  refine (sense68x_zero_guard_stores_zero cvt_min (sample_bus x00) periph_units
            zero_dev used_env [] sample_regs _ eq_refl _).
  - discriminate.
  - vm_compute. reflexivity.
Defined.


